(** * Hoarder: the relational schema and the extension's save action

    A shallow embedding of [packages/db/schema.ts] (the drizzle table
    declarations and relations) and of
    [packages/browser-extension/src/SavePage.tsx] (the [runSave] effect and
    the element the popup returns).

    The schema is embedded as data: every [sqliteTable(...)] call becomes a
    [table] value, column by column, with the same builder calls
    ([notNull], [primaryKey], [unique], [default], [defaultFn],
    [references]).  The storage engine gives these declarations their
    meaning; that meaning is written once, generically over any schema:
    the constraint check [db_ok], the row insertion [insert] and the row
    deletion [deleteWhere] with the declared [onDelete] actions (foreign
    keys enforced). *)

From Stdlib Require Import ZArith.
From stdpp Require Import gmap strings list fin_maps.

Open Scope string_scope.
Open Scope list_scope.

(** ** Values, rows and databases *)

(** What a column of a selected row holds, at the level the application
    sees it: [mode: "boolean"] columns hold booleans, [mode: "timestamp"]
    columns hold dates (as an instant), [text] columns hold strings. *)
Inductive value : Type :=
  | VNull
  | VText (s : string)
  | VInt (n : Z)
  | VBool (b : bool)
  | VDate (t : Z).

#[global] Instance value_eq_dec : EqDecision value.
Proof. solve_decision. Defined.

#[global] Instance value_inhabited : Inhabited value := populate VNull.

Definition is_null (v : value) : bool :=
  match v with VNull => true | _ => false end.

(** A row is an object from field keys to values; a field that is absent
    reads as NULL. *)
Abbreviation row := (gmap string value).

Definition get (c : string) (r : row) : value := default VNull (r !! c).

(** A database state maps every table name to the rows it holds. *)
Abbreviation database := (gmap string (list row)).

Definition rowsOf (t : string) (db : database) : list row :=
  default [] (db !! t).

(** ** Column and table declarations (drizzle-orm/sqlite-core) *)

Inductive integerMode : Type := number | boolean | timestamp | timestamp_ms.

Inductive columnType : Type :=
  | ColText (enum : list string)
  | ColInteger (mode : integerMode).

Inductive defaultFunction : Type :=
  | createId   (* () => createId() *)
  | newDate.   (* () => new Date() *)

Inductive onDeleteAction : Type := cascade | setNull.

Record reference : Type := Reference {
  refTable : string;
  refColumn : string;
  onDelete : onDeleteAction
}.

Record column : Type := Column {
  colName : string;
  colType : columnType;
  colNotNull : bool;
  colPrimaryKey : bool;
  colUnique : bool;
  colDefault : option value;
  colDefaultFn : option defaultFunction;
  colReferences : option reference
}.

Definition text (name : string) : column :=
  Column name (ColText []) false false false None None None.

Definition textEnum (name : string) (enum : list string) : column :=
  Column name (ColText enum) false false false None None None.

Definition integer (name : string) (mode : integerMode) : column :=
  Column name (ColInteger mode) false false false None None None.

Definition notNull (c : column) : column :=
  Column (colName c) (colType c) true (colPrimaryKey c) (colUnique c)
         (colDefault c) (colDefaultFn c) (colReferences c).

Definition primaryKey (c : column) : column :=
  Column (colName c) (colType c) (colNotNull c) true (colUnique c)
         (colDefault c) (colDefaultFn c) (colReferences c).

Definition unique (c : column) : column :=
  Column (colName c) (colType c) (colNotNull c) (colPrimaryKey c) true
         (colDefault c) (colDefaultFn c) (colReferences c).

Definition default_ (v : value) (c : column) : column :=
  Column (colName c) (colType c) (colNotNull c) (colPrimaryKey c) (colUnique c)
         (Some v) (colDefaultFn c) (colReferences c).

Definition defaultFn (f : defaultFunction) (c : column) : column :=
  Column (colName c) (colType c) (colNotNull c) (colPrimaryKey c) (colUnique c)
         (colDefault c) (Some f) (colReferences c).

Definition references (t c' : string) (a : onDeleteAction) (c : column) : column :=
  Column (colName c) (colType c) (colNotNull c) (colPrimaryKey c) (colUnique c)
         (colDefault c) (colDefaultFn c) (Some (Reference t c' a)).

(** Method chaining: [text "id" |> notNull |> primaryKey] is
    [text("id").notNull().primaryKey()]. *)
Notation "c |> f" := (f c) (at level 45, left associativity, only parsing).

(** The third argument of [sqliteTable]: compound keys, unique constraints
    and indexes. *)
Inductive tableExtra : Type :=
  | PrimaryKeyOn (columns : list string)
  | UniqueOn (columns : list string)
  | IndexOn (name : string) (columns : list string).

Record table : Type := sqliteTable {
  tblName : string;
  tblColumns : list (string * column);
  tblExtra : list (string * tableExtra)
}.

(** ** The schema of [packages/db/schema.ts] *)

Definition createdAtField : column :=
  integer "createdAt" timestamp |> notNull |> defaultFn newDate.

Definition users : table := sqliteTable "user" [
  ("id", text "id" |> notNull |> primaryKey |> defaultFn createId);
  ("name", text "name" |> notNull);
  ("email", text "email" |> notNull |> unique);
  ("emailVerified", integer "emailVerified" timestamp_ms);
  ("image", text "image");
  ("password", text "password");
  ("role", textEnum "role" ["admin"; "user"] |> default_ (VText "user"))
] [].

Definition accounts : table := sqliteTable "account" [
  ("userId", text "userId" |> notNull |> references "user" "id" cascade);
  ("type", text "type" |> notNull);
  ("provider", text "provider" |> notNull);
  ("providerAccountId", text "providerAccountId" |> notNull);
  ("refresh_token", text "refresh_token");
  ("access_token", text "access_token");
  ("expires_at", integer "expires_at" number);
  ("token_type", text "token_type");
  ("scope", text "scope");
  ("id_token", text "id_token");
  ("session_state", text "session_state")
] [
  ("compoundKey", PrimaryKeyOn ["provider"; "providerAccountId"])
].

Definition sessions : table := sqliteTable "session" [
  ("sessionToken", text "sessionToken" |> notNull |> primaryKey |> defaultFn createId);
  ("userId", text "userId" |> notNull |> references "user" "id" cascade);
  ("expires", integer "expires" timestamp_ms |> notNull)
] [].

Definition verificationTokens : table := sqliteTable "verificationToken" [
  ("identifier", text "identifier" |> notNull);
  ("token", text "token" |> notNull);
  ("expires", integer "expires" timestamp_ms |> notNull)
] [
  ("compoundKey", PrimaryKeyOn ["identifier"; "token"])
].

Definition apiKeys : table := sqliteTable "apiKey" [
  ("id", text "id" |> notNull |> primaryKey |> defaultFn createId);
  ("name", text "name" |> notNull);
  ("createdAt", createdAtField);
  ("keyId", text "keyId" |> notNull |> unique);
  ("keyHash", text "keyHash" |> notNull);
  ("userId", text "userId" |> notNull |> references "user" "id" cascade)
] [
  ("unq", UniqueOn ["name"; "userId"])
].

Definition bookmarks : table := sqliteTable "bookmarks" [
  ("id", text "id" |> notNull |> primaryKey |> defaultFn createId);
  ("createdAt", createdAtField);
  ("title", text "title");
  ("archived", integer "archived" boolean |> notNull |> default_ (VBool false));
  ("favourited", integer "favourited" boolean |> notNull |> default_ (VBool false));
  ("userId", text "userId" |> notNull |> references "user" "id" cascade);
  ("taggingStatus",
     textEnum "taggingStatus" ["pending"; "failure"; "success"]
       |> default_ (VText "pending"));
  ("summary", text "summary");
  ("note", text "note");
  ("type", textEnum "type" ["link"; "text"; "asset"] |> notNull)
] [
  ("userIdIdx", IndexOn "bookmarks_userId_idx" ["userId"]);
  ("archivedIdx", IndexOn "bookmarks_archived_idx" ["archived"]);
  ("favIdx", IndexOn "bookmarks_favourited_idx" ["favourited"]);
  ("createdAtIdx", IndexOn "bookmarks_createdAt_idx" ["createdAt"])
].

Definition bookmarkLinks : table := sqliteTable "bookmarkLinks" [
  ("id", text "id" |> notNull |> primaryKey |> defaultFn createId
           |> references "bookmarks" "id" cascade);
  ("url", text "url" |> notNull);
  ("title", text "title");
  ("description", text "description");
  ("imageUrl", text "imageUrl");
  ("favicon", text "favicon");
  ("content", text "content");
  ("htmlContent", text "htmlContent");
  ("crawledAt", integer "crawledAt" timestamp);
  ("crawlStatus",
     textEnum "crawlStatus" ["pending"; "failure"; "success"]
       |> default_ (VText "pending"))
] [
  ("urlIdx", IndexOn "bookmarkLinks_url_idx" ["url"])
].

Definition assets : table := sqliteTable "assets" [
  ("id", text "id" |> notNull |> primaryKey);
  ("assetType",
     textEnum "assetType"
       ["linkBannerImage"; "linkScreenshot"; "linkFullPageArchive";
        "linkVideo"; "bookmarkAsset"; "unknown"] |> notNull);
  ("size", integer "size" number |> notNull |> default_ (VInt 0));
  ("contentType", text "contentType");
  ("fileName", text "fileName");
  ("bookmarkId", text "bookmarkId" |> references "bookmarks" "id" cascade);
  ("userId", text "userId" |> notNull |> references "user" "id" cascade)
] [
  ("bookmarkIdIdx", IndexOn "assets_bookmarkId_idx" ["bookmarkId"]);
  ("assetTypeIdx", IndexOn "assets_assetType_idx" ["assetType"]);
  ("userIdIdx", IndexOn "assets_userId_idx" ["userId"])
].

Definition bookmarkTexts : table := sqliteTable "bookmarkTexts" [
  ("id", text "id" |> notNull |> primaryKey |> defaultFn createId
           |> references "bookmarks" "id" cascade);
  ("text", text "text");
  ("sourceUrl", text "sourceUrl")
] [].

Definition bookmarkAssets : table := sqliteTable "bookmarkAssets" [
  ("id", text "id" |> notNull |> primaryKey |> defaultFn createId
           |> references "bookmarks" "id" cascade);
  ("assetType", textEnum "assetType" ["image"; "pdf"] |> notNull);
  ("assetId", text "assetId" |> notNull);
  ("content", text "content");
  ("metadata", text "metadata");
  ("fileName", text "fileName");
  ("sourceUrl", text "sourceUrl")
] [].

Definition bookmarkTags : table := sqliteTable "bookmarkTags" [
  ("id", text "id" |> notNull |> primaryKey |> defaultFn createId);
  ("name", text "name" |> notNull);
  ("createdAt", createdAtField);
  ("userId", text "userId" |> notNull |> references "user" "id" cascade)
] [
  ("uniq", UniqueOn ["userId"; "name"]);
  ("nameIdx", IndexOn "bookmarkTags_name_idx" ["name"]);
  ("userIdIdx", IndexOn "bookmarkTags_userId_idx" ["userId"])
].

Definition tagsOnBookmarks : table := sqliteTable "tagsOnBookmarks" [
  ("bookmarkId", text "bookmarkId" |> notNull
                   |> references "bookmarks" "id" cascade);
  ("tagId", text "tagId" |> notNull |> references "bookmarkTags" "id" cascade);
  ("attachedAt", integer "attachedAt" timestamp |> defaultFn newDate);
  ("attachedBy", textEnum "attachedBy" ["ai"; "human"] |> notNull)
] [
  ("pk", PrimaryKeyOn ["bookmarkId"; "tagId"]);
  ("tagIdIdx", IndexOn "tagsOnBookmarks_tagId_idx" ["bookmarkId"]);
  ("bookmarkIdIdx", IndexOn "tagsOnBookmarks_bookmarkId_idx" ["bookmarkId"])
].

Definition bookmarkLists : table := sqliteTable "bookmarkLists" [
  ("id", text "id" |> notNull |> primaryKey |> defaultFn createId);
  ("name", text "name" |> notNull);
  ("icon", text "icon" |> notNull);
  ("createdAt", createdAtField);
  ("userId", text "userId" |> notNull |> references "user" "id" cascade);
  ("parentId", text "parentId" |> references "bookmarkLists" "id" setNull)
] [
  ("userIdIdx", IndexOn "bookmarkLists_userId_idx" ["userId"])
].

Definition bookmarksInLists : table := sqliteTable "bookmarksInLists" [
  ("bookmarkId", text "bookmarkId" |> notNull
                   |> references "bookmarks" "id" cascade);
  ("listId", text "listId" |> notNull
               |> references "bookmarkLists" "id" cascade);
  ("addedAt", integer "addedAt" timestamp |> defaultFn newDate)
] [
  ("pk", PrimaryKeyOn ["bookmarkId"; "listId"]);
  ("bookmarkIdIdx", IndexOn "bookmarksInLists_bookmarkId_idx" ["bookmarkId"]);
  ("listIdIdx", IndexOn "bookmarksInLists_listId_idx" ["listId"])
].

Definition customPrompts : table := sqliteTable "customPrompts" [
  ("id", text "id" |> notNull |> primaryKey |> defaultFn createId);
  ("text", text "text" |> notNull);
  ("enabled", integer "enabled" boolean |> notNull);
  ("appliesTo", textEnum "attachedBy" ["all"; "text"; "images"] |> notNull);
  ("createdAt", createdAtField);
  ("userId", text "userId" |> notNull |> references "user" "id" cascade)
] [
  ("userIdIdx", IndexOn "customPrompts_userId_idx" ["userId"])
].

Definition rssFeedsTable : table := sqliteTable "rssFeeds" [
  ("id", text "id" |> notNull |> primaryKey |> defaultFn createId);
  ("name", text "name" |> notNull);
  ("url", text "url" |> notNull);
  ("createdAt", createdAtField);
  ("lastFetchedAt", integer "lastFetchedAt" timestamp);
  ("lastFetchedStatus",
     textEnum "lastFetchedStatus" ["pending"; "failure"; "success"]
       |> default_ (VText "pending"));
  ("userId", text "userId" |> notNull |> references "user" "id" cascade)
] [
  ("userIdIdx", IndexOn "rssFeeds_userId_idx" ["userId"])
].

Definition rssFeedImportsTable : table := sqliteTable "rssFeedImports" [
  ("id", text "id" |> notNull |> primaryKey |> defaultFn createId);
  ("createdAt", createdAtField);
  ("entryId", text "entryId" |> notNull);
  ("rssFeedId", text "rssFeedId" |> notNull
                  |> references "rssFeeds" "id" cascade);
  ("bookmarkId", text "bookmarkId" |> references "bookmarks" "id" setNull)
] [
  ("feedIdIdx", IndexOn "rssFeedImports_feedIdIdx_idx" ["rssFeedId"]);
  ("entryIdIdx", IndexOn "rssFeedImports_entryIdIdx_idx" ["entryId"]);
  ("feedIdEntryIdUnique", UniqueOn ["rssFeedId"; "entryId"])
].

Definition config : table := sqliteTable "config" [
  ("key", text "key" |> notNull |> primaryKey);
  ("value", text "value" |> notNull)
] [].

Definition schema : list table :=
  [ users; accounts; sessions; verificationTokens; apiKeys; bookmarks;
    bookmarkLinks; assets; bookmarkTexts; bookmarkAssets; bookmarkTags;
    tagsOnBookmarks; bookmarkLists; bookmarksInLists; customPrompts;
    rssFeedsTable; rssFeedImportsTable; config ].

(** ** What the declarations mean: constraints *)

(** NOT NULL: every column declared [notNull] holds a value. *)
Definition notNullOk (T : table) (r : row) : bool :=
  forallb (fun kc => negb (colNotNull kc.2) || negb (is_null (get kc.1 r)))
          (tblColumns T).

(** A row of a table holds the columns of that table and no others. *)
Definition shapeOk (T : table) (r : row) : bool :=
  forallb (fun kv => bool_decide (kv.1 ∈ map fst (tblColumns T)))
          (map_to_list r).

(** The column lists that must identify a row: single-column primary keys
    and [unique()] columns, compound [primaryKey({columns})] and
    [unique().on(...)].  Indexes constrain nothing. *)
Definition uniqueKeys (T : table) : list (list string) :=
  flat_map (fun kc => if colPrimaryKey kc.2 || colUnique kc.2
                      then [[kc.1]] else []) (tblColumns T)
  ++ flat_map (fun ke => match ke.2 with
                         | PrimaryKeyOn cs | UniqueOn cs => [cs]
                         | IndexOn _ _ => []
                         end) (tblExtra T).

(** Two rows collide on a key when they hold equal, non-NULL values in all
    of its columns (NULLs are pairwise distinct for a uniqueness check). *)
Definition agree (cs : list string) (r1 r2 : row) : bool :=
  forallb (fun c => negb (is_null (get c r1))
                    && bool_decide (get c r1 = get c r2)) cs.

Fixpoint distinctOn (cs : list string) (rs : list row) : bool :=
  match rs with
  | [] => true
  | r :: rs' => negb (existsb (agree cs r) rs') && distinctOn cs rs'
  end.

Definition foreignKeys (T : table) : list (string * reference) :=
  flat_map (fun kc => match colReferences kc.2 with
                      | Some ref => [(kc.1, ref)]
                      | None => []
                      end) (tblColumns T).

(** A foreign key holds for a row when it is NULL or names a row of the
    referenced table. *)
Definition fkOk (db : database) (r : row) (fk : string * reference) : bool :=
  is_null (get fk.1 r)
  || existsb (fun p => bool_decide (get (refColumn fk.2) p = get fk.1 r))
             (rowsOf (refTable fk.2) db).

Definition foreignKeysOk (db : database) (T : table) : bool :=
  forallb (fun r => forallb (fkOk db r) (foreignKeys T))
          (rowsOf (tblName T) db).

Definition tableOk (db : database) (T : table) : bool :=
  forallb (shapeOk T) (rowsOf (tblName T) db)
  && forallb (notNullOk T) (rowsOf (tblName T) db)
  && forallb (fun cs => distinctOn cs (rowsOf (tblName T) db)) (uniqueKeys T)
  && foreignKeysOk db T.

(** The referential rules of a schema, and all of its constraints. *)
Definition fk_ok (S : list table) (db : database) : bool :=
  forallb (foreignKeysOk db) S.

Definition db_ok (S : list table) (db : database) : bool :=
  forallb (tableOk db) S.

(** ** What the declarations mean: DELETE with [onDelete] actions *)

(** The foreign keys that point at table [t]: child table, child column,
    reference. *)
Definition incoming (S : list table) (t : string)
  : list (string * string * reference) :=
  flat_map (fun T =>
    flat_map (fun fk => if bool_decide (refTable fk.2 = t)
                        then [(tblName T, fk.1, fk.2)] else [])
             (foreignKeys T)) S.

Definition refersTo (keys : list value) (v : value) : bool :=
  negb (is_null v) && bool_decide (v ∈ keys).

Definition nullify (c : string) (keys : list value) (r : row) : row :=
  if refersTo keys (get c r) then <[c := VNull]> r else r.

(** One foreign key reacting to the removal of the parent rows [gone]:
    [cascade] removes the referring rows (through [del], which lets their
    own dependents react in turn), [setNull] blanks the referring column. *)
Definition react (del : string → (row → bool) → database → database)
    (gone : list row) (db : database) (fk : string * string * reference)
  : database :=
  let keys := map (get (refColumn fk.2)) gone in
  match onDelete fk.2 with
  | cascade => del fk.1.1 (fun r => refersTo keys (get fk.1.2 r)) db
  | setNull => <[fk.1.1 := map (nullify fk.1.2 keys) (rowsOf fk.1.1 db)]> db
  end.

Fixpoint deleteRows (fuel : nat) (S : list table) (t : string)
    (victim : row → bool) (db : database) : database :=
  match fuel with
  | O => db
  | Datatypes.S n =>
      let gone := List.filter victim (rowsOf t db) in
      let kept := List.filter (fun r => negb (victim r)) (rowsOf t db) in
      fold_left (react (deleteRows n S) gone) (incoming S t) (<[t := kept]> db)
  end.

(** [db.delete(t).where(victim)].  A chain of cascades visits each table at
    most once when the cascade edges are acyclic, so the number of tables is
    fuel enough (see [deleteRows_fuel] below for this schema). *)
Definition deleteWhere (S : list table) (t : table) (victim : row → bool)
    (db : database) : database :=
  deleteRows (length S) S (tblName t) victim db.

(** The filter [eq(column, v)] of a [where] clause. *)
Definition whereEq (c : string) (v : value) (r : row) : bool :=
  bool_decide (get c r = v).

(** ** What the declarations mean: INSERT with defaults *)

(** What the default functions return at the time of the insert. *)
Record clock : Type := Clock { freshId : string; now : Z }.

Definition runDefaultFn (k : clock) (f : defaultFunction) : value :=
  match f with
  | createId => VText (freshId k)
  | newDate => VDate (now k)
  end.

(** The value stored in a column: the one supplied, else the declared
    default, else the default function's result, else NULL. *)
Definition fillColumn (k : clock) (values : row) (kc : string * column) : value :=
  match values !! kc.1 with
  | Some v => v
  | None =>
      match colDefault kc.2 with
      | Some d => d
      | None =>
          match colDefaultFn kc.2 with
          | Some f => runDefaultFn k f
          | None => VNull
          end
      end
  end.

Definition fillRow (k : clock) (T : table) (values : row) : row :=
  list_to_map (map (fun kc => (kc.1, fillColumn k values kc)) (tblColumns T)).

Inductive dbError : Type :=
  | NotNullViolation
  | UniqueViolation
  | ForeignKeyViolation.

(** [db.insert(T).values(values)]: the row is stored only if every
    constraint of the table still holds with it. *)
Definition insert (k : clock) (T : table) (values : row) (db : database)
  : dbError + database :=
  let r := fillRow k T values in
  let db' := <[tblName T := rowsOf (tblName T) db ++ [r]]> db in
  if negb (notNullOk T r) then inl NotNullViolation
  else if existsb (fun cs => existsb (fun r0 => agree cs r0 r)
                                     (rowsOf (tblName T) db))
                  (uniqueKeys T)
       then inl UniqueViolation
  else if negb (forallb (fkOk db' r) (foreignKeys T))
       then inl ForeignKeyViolation
  else inr db'.

(** ** Which columns a delete can blank *)

Definition isSetNull (a : onDeleteAction) : bool :=
  match a with setNull => true | cascade => false end.

(** [blanked S x c]: column [c] of table [x] is declared with a
    [set null] reference, so a delete elsewhere may overwrite it. *)
Definition blanked (S : list table) (x c : string) : bool :=
  existsb (fun T => bool_decide (tblName T = x)
                    && existsb (fun fk => bool_decide (fk.1 = c)
                                          && isSetNull (onDelete fk.2))
                               (foreignKeys T)) S.

(** [fades S db db']: every row of [db'] descends from a row of [db] of the
    same table, equal to it outside the [set null] columns.  Deleting never
    invents a row and never rewrites any other column. *)
Definition fades (S : list table) (db db' : database) : Prop :=
  ∀ x r', In r' (rowsOf x db') →
    ∃ r, In r (rowsOf x db) ∧ ∀ c, blanked S x c = false → get c r' = get c r.

(** The cascade edges below [t] are at most [k] deep. *)
Fixpoint cascadeDepthOk (k : nat) (S : list table) (t : string) : bool :=
  match k with
  | O => false
  | Datatypes.S k' =>
      forallb (fun fk => isSetNull (onDelete fk.2)
                         || cascadeDepthOk k' S fk.1.1) (incoming S t)
  end.

Definition allForeignKeys (S : list table) : list (string * string * reference) :=
  flat_map (fun T => map (fun fk => (tblName T, fk.1, fk.2)) (foreignKeys T)) S.

(** ** Vocabulary of the data model *)

(** The tables whose rows belong to a user. *)
Definition ownedTables : list table :=
  [ bookmarks; bookmarkTags; bookmarkLists; apiKeys; assets; customPrompts;
    rssFeedsTable ].

(** The three 1:1 extension tables of a bookmark. *)
Definition subRecordTables : list table :=
  [ bookmarkLinks; bookmarkTexts; bookmarkAssets ].

Definition hasSubRecord (db : database) (b : string) (T : table) : bool :=
  existsb (whereEq "id" (VText b)) (rowsOf (tblName T) db).

(** In how many of the extension tables bookmark [b] has a row. *)
Definition subRecordKinds (db : database) (b : string) : nat :=
  length (List.filter (hasSubRecord db b) subRecordTables).

(** No two rows of the whole database carry the same [id]. *)
Definition idsGloballyUnique (S : list table) (db : database) : Prop :=
  ∀ T1 T2 i j r1 r2,
    In T1 S → In T2 S →
    rowsOf (tblName T1) db !! i = Some r1 →
    rowsOf (tblName T2) db !! j = Some r2 →
    get "id" r1 ≠ VNull → get "id" r1 = get "id" r2 →
    T1 = T2 ∧ i = j.

(** [parentOf db l p]: list [p] is the parent of list [l]. *)
Definition parentOf (db : database) (l p : row) : Prop :=
  In l (rowsOf "bookmarkLists" db) ∧ In p (rowsOf "bookmarkLists" db)
  ∧ get "parentId" l ≠ VNull ∧ get "parentId" l = get "id" p.

(** [ancestor db a l]: following [parentId] from [l] reaches [a]. *)
Inductive ancestor (db : database) : row → row → Prop :=
  | ancestor_parent (l p : row) :
      parentOf db l p → ancestor db p l
  | ancestor_further (l p a : row) :
      parentOf db l p → ancestor db a p → ancestor db a l.

(** ** Sample states *)

Definition mkRow (fields : list (string * value)) : row := list_to_map fields.

Definition ann : row :=
  mkRow [("id", VText "u1"); ("name", VText "Ann");
         ("email", VText "ann@example.org"); ("role", VText "user")].

Definition bob : row :=
  mkRow [("id", VText "u2"); ("name", VText "Bob");
         ("email", VText "bob@example.org"); ("role", VText "admin")].

Definition bookmarkRow (id owner kind : string) : row :=
  mkRow [("id", VText id); ("createdAt", VDate 1700000000);
         ("archived", VBool false); ("favourited", VBool false);
         ("userId", VText owner); ("taggingStatus", VText "pending");
         ("type", VText kind)].

Definition linkRow (id url : string) : row :=
  mkRow [("id", VText id); ("url", VText url); ("crawlStatus", VText "pending")].

Definition textRow (id body : string) : row :=
  mkRow [("id", VText id); ("text", VText body)].

Definition listRow (id owner name : string) (parent : value) : row :=
  mkRow [("id", VText id); ("name", VText name); ("icon", VText "*");
         ("createdAt", VDate 1700000100); ("userId", VText owner);
         ("parentId", parent)].

Definition tagRow (id owner name : string) : row :=
  mkRow [("id", VText id); ("name", VText name);
         ("createdAt", VDate 1700000200); ("userId", VText owner)].

Definition feedRow (id owner : string) : row :=
  mkRow [("id", VText id); ("name", VText "news");
         ("url", VText "https://example.org/feed.xml");
         ("createdAt", VDate 1700000300);
         ("lastFetchedStatus", VText "pending"); ("userId", VText owner)].

Definition importRow (id feed entry : string) (bookmark : value) : row :=
  mkRow [("id", VText id); ("createdAt", VDate 1700000400);
         ("entryId", VText entry); ("rssFeedId", VText feed);
         ("bookmarkId", bookmark)].

(** Two users; Ann owns a link bookmark, a text bookmark, a tag attached to
    the link, a list with a sub-list, an API key, an asset, a prompt and a
    feed with one imported entry. *)
Definition library : database :=
  list_to_map [
    ("user", [ann; bob]);
    ("bookmarks", [bookmarkRow "b1" "u1" "link"; bookmarkRow "b2" "u1" "text";
                   bookmarkRow "b3" "u2" "link"]);
    ("bookmarkLinks", [linkRow "b1" "https://example.org/";
                       linkRow "b3" "https://example.net/"]);
    ("bookmarkTexts", [textRow "b2" "remember the milk"]);
    ("bookmarkTags", [tagRow "t1" "u1" "reading"]);
    ("tagsOnBookmarks",
       [mkRow [("bookmarkId", VText "b1"); ("tagId", VText "t1");
               ("attachedAt", VDate 1700000500); ("attachedBy", VText "human")]]);
    ("bookmarkLists", [listRow "l1" "u1" "top" VNull;
                       listRow "l2" "u1" "sub" (VText "l1")]);
    ("bookmarksInLists",
       [mkRow [("bookmarkId", VText "b1"); ("listId", VText "l1");
               ("addedAt", VDate 1700000600)]]);
    ("apiKey",
       [mkRow [("id", VText "k1"); ("name", VText "cli");
               ("createdAt", VDate 1700000700); ("keyId", VText "kid1");
               ("keyHash", VText "hash1"); ("userId", VText "u1")]]);
    ("assets",
       [mkRow [("id", VText "a1"); ("assetType", VText "linkScreenshot");
               ("size", VInt 2048); ("bookmarkId", VText "b1");
               ("userId", VText "u1")]]);
    ("customPrompts",
       [mkRow [("id", VText "p1"); ("text", VText "be brief");
               ("enabled", VBool true); ("appliesTo", VText "all");
               ("createdAt", VDate 1700000800); ("userId", VText "u1")]]);
    ("rssFeeds", [feedRow "f1" "u1"]);
    ("rssFeedImports", [importRow "i1" "f1" "entry-1" (VText "b1")])
  ].

(** [library] with a text sub-record added under the link bookmark [b1]. *)
Definition linkAndText : database :=
  <["bookmarkTexts" := [textRow "b2" "remember the milk";
                        textRow "b1" "also a text"]]> library.

(** A list that is its own parent. *)
Definition selfParent : database :=
  list_to_map [
    ("user", [ann]);
    ("bookmarkLists", [listRow "l1" "u1" "loop" (VText "l1")])
  ].

(** Two lists that are each other's parent. *)
Definition twoCycle : database :=
  list_to_map [
    ("user", [ann]);
    ("bookmarkLists", [listRow "l1" "u1" "ping" (VText "l2");
                       listRow "l2" "u1" "pong" (VText "l1")])
  ].

(** ** The extension's save action ([SavePage.tsx]) *)

Module SavePage.

(** [chrome.tabs.Tab], reduced to the field [runSave] reads. *)
Record Tab : Type := { url : option string }.

(** The argument of the [createBookmark] mutation. *)
Record NewBookmark : Type := { type : string; bookmarkUrl : string }.

(** What [runSave] can change: the component's [error] state and the
    requests handed to the [createBookmark] mutation. *)
Record state : Type := {
  error : option string;
  createBookmarkCalls : list NewBookmark
}.

Definition M (A : Type) : Type := state → A * state.

Definition ret {A : Type} (a : A) : M A := fun st => (a, st).

Definition bind {A B : Type} (m : M A) (f : A → M B) : M B :=
  fun st => let (a, st') := m st in f a st'.

Definition setError (msg : string) : M unit :=
  fun st => (tt, {| error := Some msg;
                    createBookmarkCalls := createBookmarkCalls st |}).

Definition createBookmark (req : NewBookmark) : M unit :=
  fun st => (tt, {| error := error st;
                    createBookmarkCalls := createBookmarkCalls st ++ [req] |}).

(** The [onError] callback of the mutation. *)
Definition onError (message : string) : M unit :=
  setError (String.append "Something went wrong: " message).

(** [runSave], given what [chrome.tabs.query] resolved to.  The test
    [currentTab?.url] is JavaScript truthiness: it fails when there is no
    first tab, when its [url] is undefined and when it is the empty
    string. *)
Definition runSave (queryResult : list Tab) : M unit :=
  let currentTab := head queryResult in
  match currentTab ≫= url with
  | Some (String _ _ as currentUrl) =>
      createBookmark {| type := "link"; bookmarkUrl := currentUrl |}
  | Some EmptyString | None =>
      setError "Couldn't find the URL of the current tab"
  end.

End SavePage.

(** Every column of the key [cs] of table [T] is declared [notNull]. *)
Definition notNullKey (T : table) (cs : list string) : bool :=
  forallb (fun c => existsb (fun kc => bool_decide (kc.1 = c) && colNotNull kc.2)
                            (tblColumns T)) cs.


(** ** How a delete can change a table *)

(** [nulled S x r r']: [r'] is [r] with some [set null] columns of table
    [x] overwritten by NULL. *)
Inductive nulled (S : list table) (x : string) : row → row → Prop :=
  | nulled_same (r : row) : nulled S x r r
  | nulled_blank (r r' : row) (c : string) :
      nulled S x r r' → blanked S x c = true →
      nulled S x r (<[c := VNull]> r').

(** [thins S x rs rs']: [rs'] is [rs] with some rows dropped and the others
    [nulled], in the same order. *)
Inductive thins (S : list table) (x : string) : list row → list row → Prop :=
  | thins_nil : thins S x [] []
  | thins_drop (r : row) (rs rs' : list row) :
      thins S x rs rs' → thins S x (r :: rs) rs'
  | thins_keep (r r' : row) (rs rs' : list row) :
      nulled S x r r' → thins S x rs rs' → thins S x (r :: rs) (r' :: rs').

Definition shrinks (S : list table) (db db' : database) : Prop :=
  ∀ x, thins S x (rowsOf x db) (rowsOf x db').

(** ** Well-formed schemas *)

Definition columnKeys (T : table) : list string := map fst (tblColumns T).

Definition nullableIn (T : table) (c : string) : bool :=
  forallb (fun kc => negb (bool_decide (kc.1 = c)) || negb (colNotNull kc.2))
          (tblColumns T).

(** What the generic results ask of a schema: table names and column keys
    are not repeated; a [set null] column is declared nullable; a column
    that is referenced, or that cascades, is not itself a [set null]
    column; every reference points at a table of the schema. *)
Definition schemaSane (S : list table) : bool :=
  bool_decide (NoDup (map tblName S))
  && forallb (fun T => bool_decide (NoDup (columnKeys T))) S
  && forallb (fun T =>
       forallb (fun fk => negb (isSetNull (onDelete fk.2))
                          || nullableIn T fk.1) (foreignKeys T)) S
  && forallb (fun e =>
       negb (blanked S (refTable e.2) (refColumn e.2))
       && (isSetNull (onDelete e.2) || negb (blanked S e.1.1 e.1.2))
       && bool_decide (refTable e.2 ∈ map tblName S))
       (allForeignKeys S).

(** [hasParent db ref v]: the table [ref] points at holds a row whose
    referenced column is [v]; [hasChild db x c v]: table [x] holds a row
    whose column [c] is [v]. *)
Definition hasParent (db : database) (ref : reference) (v : value) : Prop :=
  ∃ p, In p (rowsOf (refTable ref) db) ∧ get (refColumn ref) p = v.

Definition hasChild (db : database) (x c : string) (v : value) : Prop :=
  ∃ r, In r (rowsOf x db) ∧ get c r = v.

(** While the references into a table are being processed: a value that
    had a parent in [db0] and still has a child either still has a parent,
    or its reference is still [pending] and the value is a deleted key. *)
Definition settling (S : list table) (db0 : database) (gone : list row)
    (pending : list (string * string * reference)) (d : database) : Prop :=
  ∀ x c ref u,
    In (x, c, ref) (allForeignKeys S) → u ≠ VNull →
    hasParent db0 ref u → hasChild d x c u →
    hasParent d ref u
    ∨ (In (x, c, ref) pending ∧ In u (map (get (refColumn ref)) gone)).

(** ** Which tables a delete can touch *)

(** The tables a reference can change when its parent rows go: the child
    itself and, for a cascade, what deleting from the child touches. *)
Definition touchedBy (affected : string → list string)
    (fk : string * string * reference) : list string :=
  match onDelete fk.2 with
  | cascade => affected fk.1.1
  | setNull => [fk.1.1]
  end.

Fixpoint affected (n : nat) (S : list table) (t : string) : list string :=
  match n with
  | O => []
  | Datatypes.S n' => t :: flat_map (touchedBy (affected n' S)) (incoming S t)
  end.

(** The tables changed by the reactions to a delete from [t]. *)
Definition reached (n : nat) (S : list table) (t : string) : list string :=
  flat_map (touchedBy (affected n S)) (incoming S t).

(** Each reference of the schema points at a NOT NULL key of a table of
    the schema. *)
Definition referencesKeys (S : list table) : bool :=
  forallb (fun e =>
    existsb (fun T => bool_decide (tblName T = refTable e.2)
                      && bool_decide ([refColumn e.2] ∈ uniqueKeys T)
                      && notNullKey T [refColumn e.2]) S)
    (allForeignKeys S).

(** ** Deciding equality of declarations *)

#[global] Instance integerMode_eq_dec : EqDecision integerMode.
Proof. solve_decision. Defined.

#[global] Instance columnType_eq_dec : EqDecision columnType.
Proof. solve_decision. Defined.

#[global] Instance defaultFunction_eq_dec : EqDecision defaultFunction.
Proof. solve_decision. Defined.

#[global] Instance onDeleteAction_eq_dec : EqDecision onDeleteAction.
Proof. solve_decision. Defined.

#[global] Instance reference_eq_dec : EqDecision reference.
Proof. solve_decision. Defined.

#[global] Instance column_eq_dec : EqDecision column.
Proof. solve_decision. Defined.

#[global] Instance tableExtra_eq_dec : EqDecision tableExtra.
Proof. solve_decision. Defined.

#[global] Instance table_eq_dec : EqDecision table.
Proof. solve_decision. Defined.

(** ** Relations ([relations(...)] of drizzle-orm) *)

Inductive relation : Type :=
  | one (target : table) (fields references_ : list string)
  | many (target : table).

(** [relations(source, ...)]: the named relations of a table. *)
Definition relations (source : table) (rels : list (string * relation))
  : table * list (string * relation) := (source, rels).

Definition userRelations := relations users [
  ("tags", many bookmarkTags);
  ("bookmarks", many bookmarks)
].

Definition bookmarkRelations := relations bookmarks [
  ("user", one users ["userId"] ["id"]);
  ("link", one bookmarkLinks ["id"] ["id"]);
  ("text", one bookmarkTexts ["id"] ["id"]);
  ("asset", one bookmarkAssets ["id"] ["id"]);
  ("tagsOnBookmarks", many tagsOnBookmarks);
  ("bookmarksInLists", many bookmarksInLists);
  ("assets", many assets)
].

Definition assetRelations := relations assets [
  ("bookmark", one bookmarks ["bookmarkId"] ["id"])
].

Definition bookmarkTagsRelations := relations bookmarkTags [
  ("user", one users ["userId"] ["id"]);
  ("tagsOnBookmarks", many tagsOnBookmarks)
].

Definition tagsOnBookmarksRelations := relations tagsOnBookmarks [
  ("tag", one bookmarkTags ["tagId"] ["id"]);
  ("bookmark", one bookmarks ["bookmarkId"] ["id"])
].

Definition apiKeyRelations := relations apiKeys [
  ("user", one users ["userId"] ["id"])
].

Definition bookmarkListsRelations := relations bookmarkLists [
  ("bookmarksInLists", many bookmarksInLists);
  ("user", one users ["userId"] ["id"]);
  ("parent", one bookmarkLists ["parentId"] ["id"])
].

Definition bookmarksInListsRelations := relations bookmarksInLists [
  ("bookmark", one bookmarks ["bookmarkId"] ["id"]);
  ("list", one bookmarkLists ["listId"] ["id"])
].

Definition allRelations : list (table * list (string * relation)) :=
  [ userRelations; bookmarkRelations; assetRelations; bookmarkTagsRelations;
    tagsOnBookmarksRelations; apiKeyRelations; bookmarkListsRelations;
    bookmarksInListsRelations ].

(** The join condition of a [one] relation: each field of the source row
    equals the matching referenced column of the target row (NULL joins
    nothing). *)
Definition joins (fields references_ : list string) (r p : row) : bool :=
  forallb (fun fr => negb (is_null (get fr.1 r))
                     && bool_decide (get fr.1 r = get fr.2 p))
          (combine fields references_).

(** The rows a [one] relation joins a source row to; a query keeps the
    first of them, if any. *)
Definition related (target : table) (fields references_ : list string)
    (r : row) (db : database) : list row :=
  List.filter (joins fields references_ r) (rowsOf (tblName target) db).

(** All [one] relations: source, name, target, fields, references. *)
Definition oneRelations
  : list (table * string * table * list string * list string) :=
  flat_map (fun sr =>
    flat_map (fun nr => match nr.2 with
                        | one target fields refs =>
                            [(sr.1, nr.1, target, fields, refs)]
                        | many _ => []
                        end) sr.2) allRelations.

(** ** What the popup shows ([SavePage.tsx], the [switch (status)]) *)

Module SavePageView.

(** The [status] of the [createBookmark] mutation. *)
Inductive status : Type := error | success | pending | idle.

Inductive node : Type :=
  | Text (s : string)
  | Nothing
  | Spinner.

(** [<div className=...>child</div>] *)
Record element : Type := div { className : string; child : node }.

(** The element [SavePage] returns for a mutation status and the
    component's [error] state ([{error}] renders nothing while the state is
    undefined). *)
Definition render (s : status) (st : SavePage.state) : element :=
  match s with
  | error =>
      div "text-red-500"
          match SavePage.error st with Some msg => Text msg | None => Nothing end
  | success => div "m-auto text-lg" (Text "Bookmark Saved")
  | pending => div "m-auto" Spinner
  | idle => div "m-auto" Spinner
  end.

(** The effect run [n] times in a row on the same query result (the effect
    re-runs whenever [createBookmark] changes identity). *)
Fixpoint runSaveTimes (n : nat) (queryResult : list SavePage.Tab)
  : SavePage.M unit :=
  match n with
  | O => SavePage.ret tt
  | Datatypes.S n' =>
      SavePage.bind (SavePage.runSave queryResult)
                    (fun _ => runSaveTimes n' queryResult)
  end.

End SavePageView.

(** ** References that are the only way into their table *)

Fixpoint splitAt (e : string * string * reference)
    (l : list (string * string * reference))
  : option (list (string * string * reference)
            * list (string * string * reference)) :=
  match l with
  | [] => None
  | a :: l' =>
      if bool_decide (a = e) then Some ([], l')
      else match splitAt e l' with
           | Some (before, after) => Some (a :: before, after)
           | None => None
           end
  end.

(** [soleRoute n S e]: [e] is a cascading reference from another table,
    and while its parent table is deleted from (with [n] levels of cascade
    below it) nothing but [e] itself touches the referring table. *)
Definition soleRoute (n : nat) (S : list table)
    (e : string * string * reference) : bool :=
  match splitAt e (incoming S (refTable e.2)) with
  | Some (before, after) =>
      negb (isSetNull (onDelete e.2))
      && negb (bool_decide (e.1.1 = refTable e.2))
      && negb (bool_decide (e.1.1 ∈ flat_map (touchedBy (affected (Datatypes.S n) S)) before))
      && negb (bool_decide (e.1.1 ∈ flat_map (touchedBy (affected (Datatypes.S n) S)) after))
      && negb (bool_decide (e.1.1 ∈ reached n S e.1.1))
  | None => false
  end.

(** The values of a new list that names itself as its parent. *)
Definition selfParentValues (id owner name icon : string) : row :=
  mkRow [("id", VText id); ("name", VText name); ("icon", VText icon);
         ("userId", VText owner); ("parentId", VText id)].

(** * Properties *)

(** ** Reading rows and tables *)

Lemma rowsOf_insert_eq (t : string) (rs : list row) (db : database) :
  rowsOf t (<[t := rs]> db) = rs.
Proof. unfold rowsOf. by rewrite lookup_insert_eq. Qed.

Lemma rowsOf_insert_ne (t x : string) (rs : list row) (db : database) :
  t ≠ x → rowsOf x (<[t := rs]> db) = rowsOf x db.
Proof. intros Hne. unfold rowsOf. by rewrite lookup_insert_ne. Qed.

Lemma get_insert_eq (c : string) (v : value) (r : row) :
  get c (<[c := v]> r) = v.
Proof. unfold get. by rewrite lookup_insert_eq. Qed.

Lemma get_insert_ne (c c' : string) (v : value) (r : row) :
  c ≠ c' → get c' (<[c := v]> r) = get c' r.
Proof. intros Hne. unfold get. by rewrite lookup_insert_ne. Qed.

Lemma refersTo_spec (keys : list value) (v : value) :
  refersTo keys v = true ↔ v ≠ VNull ∧ In v keys.
Proof.
  unfold refersTo. rewrite andb_true_iff, bool_decide_eq_true, list_elem_of_In.
  destruct v; simpl; split; intros [H1 H2]; split; try done.
Qed.

Lemma nullify_other (c c' : string) (keys : list value) (r : row) :
  c ≠ c' → get c' (nullify c keys r) = get c' r.
Proof.
  intros Hne. unfold nullify.
  destruct (refersTo keys (get c r)); [by apply get_insert_ne | done].
Qed.

(** ** Foreign keys of a schema *)

Lemma incoming_spec (S : list table) (t x c : string) (ref : reference) :
  In (x, c, ref) (incoming S t) ↔
  refTable ref = t ∧ ∃ T, In T S ∧ tblName T = x ∧ In (c, ref) (foreignKeys T).
Proof.
  unfold incoming. rewrite in_flat_map. split.
  - intros (T & HT & Hin). apply in_flat_map in Hin as ([c0 ref0] & Hfk & Hin).
    simpl in Hin. case_bool_decide as Hd; [|done].
    destruct Hin as [[= <- <- <-]|[]]. eauto 6.
  - intros (Ht & T & HT & <- & Hfk). exists T. split; [done|].
    apply in_flat_map. exists (c, ref). split; [done|]. simpl.
    rewrite bool_decide_eq_true_2 by done. by left.
Qed.

Lemma blanked_setNull (S : list table) (t x c : string) (ref : reference) :
  In (x, c, ref) (incoming S t) → onDelete ref = setNull → blanked S x c = true.
Proof.
  intros Hin Hact. apply incoming_spec in Hin as (_ & T & HT & Hx & Hfk).
  unfold blanked. apply existsb_exists. exists T. split; [done|].
  rewrite andb_true_iff, bool_decide_eq_true. split; [done|].
  apply existsb_exists. exists (c, ref). split; [done|]. simpl.
  rewrite Hact, bool_decide_eq_true_2; done.
Qed.

(** ** Deleting: nothing is invented, nothing else is rewritten *)

Section Delete.
Variable S : list table.

Lemma fades_refl (db : database) : fades S db db.
Proof. intros x r' Hin. exists r'. auto. Qed.

Lemma fades_trans (d1 d2 d3 : database) :
  fades S d1 d2 → fades S d2 d3 → fades S d1 d3.
Proof.
  intros H12 H23 x r3 Hin3.
  destruct (H23 x r3 Hin3) as (r2 & Hin2 & Hsame2).
  destruct (H12 x r2 Hin2) as (r1 & Hin1 & Hsame1).
  exists r1. split; [done|]. intros c Hc.
  rewrite Hsame2, Hsame1; done.
Qed.

Lemma fades_filter (t : string) (keep : row → bool) (db : database) :
  fades S db (<[t := List.filter keep (rowsOf t db)]> db).
Proof.
  intros x r' Hin. destruct (decide (t = x)) as [<-|Hne].
  - rewrite rowsOf_insert_eq in Hin. apply filter_In in Hin as [Hin _]. eauto.
  - rewrite rowsOf_insert_ne in Hin by done. eauto.
Qed.

Lemma react_fades (del : string → (row → bool) → database → database)
    (gone : list row) (t : string) (db : database)
    (fk : string * string * reference) :
  (∀ x victim d, fades S d (del x victim d)) →
  In fk (incoming S t) →
  fades S db (react del gone db fk).
Proof.
  intros Hdel Hin. destruct fk as [[x c] ref]. unfold react. simpl.
  destruct (onDelete ref) eqn:Hact; [apply Hdel|].
  intros y r' Hr'. destruct (decide (x = y)) as [<-|Hne].
  - rewrite rowsOf_insert_eq in Hr'. apply in_map_iff in Hr' as (r & <- & Hr).
    exists r. split; [done|]. intros c' Hc'. apply nullify_other.
    intros <-. rewrite (blanked_setNull _ _ _ _ _ Hin Hact) in Hc'. done.
  - rewrite rowsOf_insert_ne in Hr' by done. eauto.
Qed.

Lemma fold_react_fades (del : string → (row → bool) → database → database)
    (gone : list row) (t : string) (fks : list (string * string * reference)) :
  (∀ x victim d, fades S d (del x victim d)) →
  (∀ fk, In fk fks → In fk (incoming S t)) →
  ∀ db, fades S db (fold_left (react del gone) fks db).
Proof.
  intros Hdel. induction fks as [|fk fks IH]; intros Hsub db; simpl.
  - apply fades_refl.
  - eapply fades_trans.
    + eapply react_fades; [done|]. apply Hsub. by left.
    + apply IH. intros fk' Hfk'. apply Hsub. by right.
Qed.

Lemma deleteRows_fades (n : nat) :
  ∀ t victim db, fades S db (deleteRows n S t victim db).
Proof.
  induction n as [|n IH]; intros t victim db; simpl.
  - apply fades_refl.
  - eapply fades_trans; [apply fades_filter|].
    apply (fold_react_fades _ _ t); auto.
Qed.

(** With fuel left, no victim survives in the table deleted from. *)
Lemma deleteRows_victims (n : nat) (t : string) (victim : row → bool)
    (db : database) (r' : row) :
  In r' (rowsOf t (deleteRows (Datatypes.S n) S t victim db)) →
  ∃ r, In r (rowsOf t db) ∧ victim r = false
       ∧ ∀ c, blanked S t c = false → get c r' = get c r.
Proof.
  simpl. intros Hin.
  eapply (fold_react_fades _ _ t) in Hin as (r & Hr & Hsame);
    [|apply deleteRows_fades|auto].
  rewrite rowsOf_insert_eq in Hr. apply filter_In in Hr as [Hr Hkeep].
  exists r. repeat split; [done| |done]. by destruct (victim r).
Qed.

(** A [cascade] reference leaves no row pointing at a deleted parent. *)
Lemma deleteRows_cascade (n : nat) (t x c : string) (ref : reference)
    (victim : row → bool) (db : database) (r' : row) :
  In (x, c, ref) (incoming S t) →
  onDelete ref = cascade →
  blanked S x c = false →
  In r' (rowsOf x (deleteRows (Datatypes.S (Datatypes.S n)) S t victim db)) →
  refersTo (map (get (refColumn ref)) (List.filter victim (rowsOf t db)))
           (get c r') = false.
Proof.
  intros Hfk Hact Hnb.
  change (deleteRows (Datatypes.S (Datatypes.S n)) S t victim db)
    with (fold_left (react (deleteRows (Datatypes.S n) S)
                           (List.filter victim (rowsOf t db)))
                    (incoming S t)
                    (<[t := List.filter (fun r => negb (victim r)) (rowsOf t db)]> db)).
  destruct (in_split _ _ Hfk) as (before & after & Hsplit).
  assert (Hafter : ∀ fk, In fk after → In fk (incoming S t)).
  { intros fk Hin. rewrite Hsplit. apply in_or_app. right. by right. }
  assert (Hdel : ∀ y v d, fades S d (deleteRows (Datatypes.S n) S y v d))
    by (intros; apply deleteRows_fades).
  assert (Hvic : ∀ v d r1, In r1 (rowsOf x (deleteRows (Datatypes.S n) S x v d)) →
            ∃ r, In r (rowsOf x d) ∧ v r = false
                 ∧ ∀ c, blanked S x c = false → get c r1 = get c r)
    by (intros v d r1 H; exact (deleteRows_victims n x v d r1 H)).
  revert Hdel Hvic. generalize (deleteRows (Datatypes.S n) S). intros del Hdel Hvic.
  rewrite Hsplit, fold_left_app.
  generalize (fold_left (react del (List.filter victim (rowsOf t db))) before
                (<[t := List.filter (fun r => negb (victim r)) (rowsOf t db)]> db)).
  intros d Hin. cbn [fold_left] in Hin.
  eapply (fold_react_fades _ _ t) in Hin as (r1 & Hr1 & Hsame1); [|done|done].
  unfold react in Hr1. simpl in Hr1. rewrite Hact in Hr1.
  apply Hvic in Hr1 as (r & _ & Hkeep & Hsame).
  rewrite Hsame1, Hsame by done. exact Hkeep.
Qed.

(** *** Fuel *)

Lemma react_ext (del1 del2 : string → (row → bool) → database → database)
    (gone : list row) (db : database) (fk : string * string * reference) :
  (onDelete fk.2 = cascade → ∀ victim d, del1 fk.1.1 victim d = del2 fk.1.1 victim d) →
  react del1 gone db fk = react del2 gone db fk.
Proof.
  intros Hext. unfold react. destruct (onDelete fk.2); [by apply Hext|done].
Qed.

Lemma fold_react_ext (del1 del2 : string → (row → bool) → database → database)
    (gone : list row) (fks : list (string * string * reference)) :
  (∀ fk, In fk fks → onDelete fk.2 = cascade →
         ∀ victim d, del1 fk.1.1 victim d = del2 fk.1.1 victim d) →
  ∀ db, fold_left (react del1 gone) fks db = fold_left (react del2 gone) fks db.
Proof.
  induction fks as [|fk fks IH]; intros Hext db; simpl; [done|].
  rewrite (react_ext del1 del2) by (apply Hext; by left).
  apply IH. intros fk' Hin. apply Hext. by right.
Qed.

(** Fuel beyond the depth of the cascade edges changes nothing. *)
Lemma deleteRows_enough (k : nat) :
  ∀ t, cascadeDepthOk k S t = true →
  ∀ n m victim db, (k ≤ n)%nat → (k ≤ m)%nat →
    deleteRows n S t victim db = deleteRows m S t victim db.
Proof.
  induction k as [|k IH]; intros t Hok n m victim db Hn Hm; [done|].
  destruct n as [|n]; [lia|]. destruct m as [|m]; [lia|]. simpl.
  apply fold_react_ext. intros fk Hin Hact victim' d.
  simpl in Hok. rewrite forallb_forall in Hok. specialize (Hok fk Hin).
  rewrite Hact in Hok. simpl in Hok. apply IH; [done|lia|lia].
Qed.
End Delete.

(** ** Constraints, unfolded *)

Section Constraints.
Variable S : list table.
Variable db : database.
Hypothesis Hok : db_ok S db = true.

Lemma db_ok_table (T : table) : In T S → tableOk db T = true.
Proof. intros HT. unfold db_ok in Hok. rewrite forallb_forall in Hok. auto. Qed.

Lemma db_ok_notNull (T : table) (r : row) (c : string) (col : column) :
  In T S → In r (rowsOf (tblName T) db) → In (c, col) (tblColumns T) →
  colNotNull col = true → get c r ≠ VNull.
Proof.
  intros HT Hr Hc Hnn Hnull. pose proof (db_ok_table T HT) as HTok.
  unfold tableOk in HTok. rewrite !andb_true_iff in HTok.
  destruct HTok as [[[_ Hnot] _] _].
  rewrite forallb_forall in Hnot. specialize (Hnot r Hr).
  unfold notNullOk in Hnot. rewrite forallb_forall in Hnot.
  specialize (Hnot (c, col) Hc). simpl in Hnot.
  rewrite Hnn, Hnull in Hnot. done.
Qed.

Lemma db_ok_distinct (T : table) (cs : list string) :
  In T S → In cs (uniqueKeys T) → distinctOn cs (rowsOf (tblName T) db) = true.
Proof.
  intros HT Hcs. pose proof (db_ok_table T HT) as HTok.
  unfold tableOk in HTok. rewrite !andb_true_iff in HTok.
  destruct HTok as [[_ Hkeys] _].
  rewrite forallb_forall in Hkeys. auto.
Qed.

Lemma db_ok_fk_ok : fk_ok S db = true.
Proof.
  unfold fk_ok. apply forallb_forall. intros T HT.
  pose proof (db_ok_table T HT) as HTok.
  unfold tableOk in HTok. rewrite !andb_true_iff in HTok. tauto.
Qed.
End Constraints.

Lemma fk_ok_spec (S : list table) (db : database) (T : table) (r : row)
    (c : string) (ref : reference) :
  fk_ok S db = true → In T S → In r (rowsOf (tblName T) db) →
  In (c, ref) (foreignKeys T) → get c r ≠ VNull →
  ∃ p, In p (rowsOf (refTable ref) db) ∧ get (refColumn ref) p = get c r.
Proof.
  intros Hfk HT Hr Hc Hnn. unfold fk_ok in Hfk. rewrite forallb_forall in Hfk.
  specialize (Hfk T HT). unfold foreignKeysOk in Hfk.
  rewrite forallb_forall in Hfk. specialize (Hfk r Hr).
  rewrite forallb_forall in Hfk. specialize (Hfk (c, ref) Hc).
  unfold fkOk in Hfk. simpl in Hfk. apply orb_true_iff in Hfk as [Hnull|Hex].
  - destruct (get c r); done.
  - apply existsb_exists in Hex as (p & Hp & Heq).
    apply bool_decide_eq_true in Heq. eauto.
Qed.

(** *** Keys *)

Lemma agree_spec (cs : list string) (r1 r2 : row) :
  agree cs r1 r2 = true ↔
  ∀ c, In c cs → get c r1 ≠ VNull ∧ get c r1 = get c r2.
Proof.
  unfold agree. rewrite forallb_forall. split; intros H c Hc.
  - specialize (H c Hc). apply andb_true_iff in H as [Hnn Heq].
    apply bool_decide_eq_true in Heq. split; [|done].
    intros Hnull. rewrite Hnull in Hnn. done.
  - destruct (H c Hc) as [Hnn Heq]. apply andb_true_iff. split.
    + destruct (get c r1); done.
    + by apply bool_decide_eq_true.
Qed.

Lemma agree_sym (cs : list string) (r1 r2 : row) :
  agree cs r1 r2 = true → agree cs r2 r1 = true.
Proof.
  rewrite !agree_spec. intros H c Hc. destruct (H c Hc) as [Hnn Heq].
  rewrite <- Heq. done.
Qed.

Lemma distinctOn_later (cs : list string) (rs : list row) :
  distinctOn cs rs = true →
  ∀ i j r1 r2, (i < j)%nat → rs !! i = Some r1 → rs !! j = Some r2 →
    agree cs r1 r2 = false.
Proof.
  induction rs as [|r rs IH]; intros Hd i j r1 r2 Hlt Hi Hj; [done|].
  simpl in Hd. apply andb_true_iff in Hd as [Hhead Htail].
  destruct j as [|j]; [lia|]. simpl in Hj. destruct i as [|i]; simpl in Hi.
  - injection Hi as <-. apply negb_true_iff in Hhead.
    destruct (agree cs r r2) eqn:Hag; [|done].
    rewrite <- Hhead. symmetry. apply existsb_exists. exists r2. split; [|done].
    apply list_elem_of_In, list_elem_of_lookup. eauto.
  - apply (IH Htail i j); [lia|done|done].
Qed.

(** Rows at two positions of a table never collide on one of its keys. *)
Lemma distinctOn_spec (cs : list string) (rs : list row) :
  distinctOn cs rs = true →
  ∀ i j r1 r2, rs !! i = Some r1 → rs !! j = Some r2 →
    agree cs r1 r2 = true → i = j.
Proof.
  intros Hd i j r1 r2 Hi Hj Hag.
  destruct (lt_eq_lt_dec i j) as [[Hlt|Heq]|Hgt]; [|done|].
  - rewrite (distinctOn_later cs rs Hd i j r1 r2) in Hag; done.
  - apply agree_sym in Hag.
    rewrite (distinctOn_later cs rs Hd j i r2 r1) in Hag; done.
Qed.

(** A key value names at most one row. *)
Lemma distinctOn_count (c : string) (v : value) (rs : list row) :
  distinctOn [c] rs = true → v ≠ VNull →
  (length (List.filter (whereEq c v) rs) ≤ 1)%nat.
Proof.
  intros Hd Hv. induction rs as [|r rs IH]; simpl; [lia|].
  simpl in Hd. apply andb_true_iff in Hd as [Hhead Htail].
  specialize (IH Htail). destruct (whereEq c v r) eqn:Hr; [|done].
  assert (List.filter (whereEq c v) rs = []) as ->; [|simpl; lia].
  destruct (List.filter (whereEq c v) rs) as [|r0 l] eqn:Hf; [done|].
  assert (In r0 (List.filter (whereEq c v) rs)) as Hin by (rewrite Hf; by left).
  apply filter_In in Hin as [Hin Hr0].
  apply bool_decide_eq_true in Hr, Hr0.
  apply negb_true_iff in Hhead.
  assert (existsb (agree [c] r) rs = true) as Hex; [|congruence].
  apply existsb_exists. exists r0. split; [done|].
  apply agree_spec. intros c' [<-|[]]. rewrite Hr, Hr0. done.
Qed.

(** *** Inserted rows *)

Lemma fillRow_lookup (k : clock) (T : table) (values : row)
    (c : string) (col : column) :
  NoDup (map fst (tblColumns T)) → In (c, col) (tblColumns T) →
  get c (fillRow k T values) = fillColumn k values (c, col).
Proof.
  intros Hnd Hin. unfold get, fillRow.
  erewrite (elem_of_list_to_map_1 _ c (fillColumn k values (c, col))); [done| |].
  - rewrite <- list_fmap_compose. exact Hnd.
  - apply list_elem_of_In, in_map_iff. exists (c, col). done.
Qed.

Lemma fillColumn_given (k : clock) (values : row) (c : string) (col : column)
    (v : value) :
  values !! c = Some v → fillColumn k values (c, col) = v.
Proof. intros H. unfold fillColumn. simpl. by rewrite H. Qed.

Lemma insert_inr (k : clock) (T : table) (values : row) (db db' : database) :
  insert k T values db = inr db' →
  db' = <[tblName T := rowsOf (tblName T) db ++ [fillRow k T values]]> db
  ∧ notNullOk T (fillRow k T values) = true.
Proof.
  unfold insert. destruct (notNullOk T (fillRow k T values)); simpl; [|done].
  destruct (existsb _ (uniqueKeys T)); [done|].
  destruct (forallb _ (foreignKeys T)); simpl; [|done].
  intros [= <-]. done.
Qed.

(** Storing a second row under an occupied key is refused. *)
Lemma insert_collision (k : clock) (T : table)
    (values : row) (db : database) (cs : list string) (r : row) :
  In cs (uniqueKeys T) → In r (rowsOf (tblName T) db) →
  agree cs r (fillRow k T values) = true →
  ∃ e, insert k T values db = inl e.
Proof.
  intros Hcs Hr Hag. unfold insert.
  destruct (notNullOk T (fillRow k T values)); simpl; [|eauto].
  assert (existsb (fun cs => existsb (fun r0 => agree cs r0 (fillRow k T values))
                                     (rowsOf (tblName T) db)) (uniqueKeys T) = true) as ->.
  { apply existsb_exists. exists cs. split; [done|].
    apply existsb_exists. exists r. done. }
  eauto.
Qed.

(** Keys over NOT NULL columns: equal key values mean the same row, and a
    second row under the same key cannot be inserted. *)
Section Keys.
Variable S : list table.
Variable db : database.
Variable T : table.
Variable cs : list string.
Hypothesis Hok : db_ok S db = true.
Hypothesis HT : In T S.
Hypothesis Hkey : In cs (uniqueKeys T).
Hypothesis Hnn : ∀ c, In c cs → ∃ col, In (c, col) (tblColumns T) ∧ colNotNull col = true.

Lemma key_agree (r1 r2 : row) :
  In r1 (rowsOf (tblName T) db) →
  (∀ c, In c cs → get c r1 = get c r2) → agree cs r1 r2 = true.
Proof.
  intros Hr1 Heq. apply agree_spec. intros c Hc. split; [|auto].
  destruct (Hnn c Hc) as (col & Hcol & Hcolnn).
  by apply (db_ok_notNull S db Hok T r1 c col).
Qed.

Lemma key_identifies (i j : nat) (r1 r2 : row) :
  rowsOf (tblName T) db !! i = Some r1 →
  rowsOf (tblName T) db !! j = Some r2 →
  (∀ c, In c cs → get c r1 = get c r2) → i = j.
Proof.
  intros Hi Hj Heq.
  apply (distinctOn_spec cs (rowsOf (tblName T) db)
           (db_ok_distinct S db Hok T cs HT Hkey) i j r1 r2 Hi Hj).
  apply key_agree; [|done].
  apply list_elem_of_In, list_elem_of_lookup. eauto.
Qed.

Lemma key_insert_refused (k : clock) (values : row) (r : row) :
  NoDup (map fst (tblColumns T)) →
  In r (rowsOf (tblName T) db) →
  (∀ c, In c cs → values !! c = Some (get c r)) →
  ∃ e, insert k T values db = inl e.
Proof.
  intros Hnd Hr Hval. apply (insert_collision k T values db cs r Hkey Hr).
  apply key_agree; [done|]. intros c Hc.
  destruct (Hnn c Hc) as (col & Hcol & _).
  rewrite (fillRow_lookup k T values c col Hnd Hcol).
  symmetry. apply fillColumn_given. auto.
Qed.
End Keys.

(** ** Facts read off the schema *)

Ltac in_list :=
  vm_compute; first [reflexivity | repeat (first [left; reflexivity | right])].

Lemma deleteRows_S (n : nat) (S : list table) (t : string)
    (victim : row → bool) (db : database) :
  deleteRows (Datatypes.S n) S t victim db =
  fold_left (react (deleteRows n S) (List.filter victim (rowsOf t db)))
            (incoming S t)
            (<[t := List.filter (fun r => negb (victim r)) (rowsOf t db)]> db).
Proof. reflexivity. Qed.

Lemma allForeignKeys_incoming (S : list table) (t : string)
    (fk : string * string * reference) :
  In fk (incoming S t) → In fk (allForeignKeys S).
Proof.
  destruct fk as [[x c] ref]. intros Hin.
  apply incoming_spec in Hin as (_ & T & HT & <- & Hfk).
  unfold allForeignKeys. apply in_flat_map. exists T. split; [done|].
  apply in_map_iff. exists (c, ref). done.
Qed.

(** Every reference of the schema names its [onDelete] action, and the
    cascade edges are at most three tables deep (user, then bookmarks or
    feeds, then their dependents). *)
Lemma schema_cascadeDepth (t : string) : cascadeDepthOk 3 schema t = true.
Proof.
  change (forallb (fun fk => isSetNull (onDelete fk.2)
                             || cascadeDepthOk 2 schema fk.1.1)
                  (incoming schema t) = true).
  apply forallb_forall. intros fk Hin.
  apply allForeignKeys_incoming in Hin. revert fk Hin.
  apply forallb_forall. vm_compute. reflexivity.
Qed.

(** The fuel [deleteWhere] runs with is enough: any fuel from 3 on gives
    the same state. *)
Lemma deleteRows_fuel (n : nat) (T : table) (victim : row → bool)
    (db : database) :
  (3 ≤ n)%nat →
  deleteRows n schema (tblName T) victim db = deleteWhere schema T victim db.
Proof.
  intros Hn. unfold deleteWhere.
  apply (deleteRows_enough schema 3 (tblName T) (schema_cascadeDepth _));
    [done|]. vm_compute. lia.
Qed.

Lemma deleteWhere_18 (T : table) (victim : row → bool) (db : database) :
  deleteWhere schema T victim db = deleteRows 18 schema (tblName T) victim db.
Proof. reflexivity. Qed.

Lemma columns_NoDup (T : table) : In T schema → NoDup (map fst (tblColumns T)).
Proof.
  intros HT.
  assert (bool_decide (NoDup (map fst (tblColumns T))) = true) as Hd;
    [|by apply bool_decide_eq_true in Hd].
  revert T HT. apply forallb_forall. vm_compute. reflexivity.
Qed.

(** Deleting the parent row with key [v] leaves no row whose cascading
    reference still holds [v]. *)
Lemma cascade_clears (S : list table) (n : nat) (t x c : string)
    (ref : reference) (v : value) (db : database) (p r : row) :
  In (x, c, ref) (incoming S t) → onDelete ref = cascade →
  blanked S x c = false →
  v ≠ VNull → In p (rowsOf t db) → get (refColumn ref) p = v →
  In r (rowsOf x (deleteRows (Datatypes.S (Datatypes.S n)) S t
                             (whereEq (refColumn ref) v) db)) →
  get c r ≠ v.
Proof.
  intros Hfk Hact Hnb Hv Hp Hkey Hr Heq.
  pose proof (deleteRows_cascade S n t x c ref _ db r Hfk Hact Hnb Hr) as Hno.
  rewrite Heq in Hno. apply not_true_iff_false in Hno. apply Hno.
  apply refersTo_spec. split; [done|].
  apply in_map_iff. exists p. split; [done|].
  apply filter_In. split; [done|]. by apply bool_decide_eq_true.
Qed.

(** ** Deleting a user *)

Lemma owned_by_user (T : table) :
  In T ownedTables →
  In T schema
  ∧ In ("userId", Reference "user" "id" cascade) (foreignKeys T)
  ∧ In (tblName T, "userId", Reference "user" "id" cascade) (incoming schema "user")
  ∧ blanked schema (tblName T) "userId" = false.
Proof.
  intros HT. simpl in HT.
  repeat (destruct HT as [<-|HT]; [split; [|split; [|split]]; in_list|]).
  destruct HT.
Qed.

(** C1. In a state whose foreign keys hold, deleting the user with id [u]
    leaves no row carrying [u] as its [userId] in bookmarks, bookmarkTags,
    bookmarkLists, apiKey, assets, customPrompts and rssFeeds. *)
Theorem user_delete_cascades (db : database) (u : string) :
  fk_ok schema db = true →
  Forall (fun T =>
            Forall (fun r => get "userId" r ≠ VText u)
                   (rowsOf (tblName T)
                      (deleteWhere schema users (whereEq "id" (VText u)) db)))
         ownedTables.
Proof.
  intros Hfk. apply List.Forall_forall. intros T HT.
  apply List.Forall_forall. intros r Hr Hu.
  destruct (owned_by_user T HT) as (HTs & Hcol & Hin & Hnb).
  rewrite deleteWhere_18 in Hr.
  destruct (deleteRows_fades schema 18 _ _ db _ r Hr) as (r0 & Hr0 & Hsame).
  assert (get "userId" r0 = VText u) as Hu0 by (rewrite <- Hsame; assumption).
  destruct (fk_ok_spec schema db T r0 "userId" _ Hfk HTs Hr0 Hcol)
    as (p & Hp & Hpid); [rewrite Hu0; discriminate|].
  simpl in Hp, Hpid. rewrite Hu0 in Hpid.
  exact (cascade_clears schema 16 "user" (tblName T) "userId" _ (VText u)
           db p r Hin eq_refl Hnb ltac:(discriminate) Hp Hpid Hr Hu).
Qed.

Lemma user_delete_cascades_witness :
  fk_ok schema library = true
  ∧ Forall (fun T =>
              Forall (fun r => get "userId" r ≠ VText "u1")
                     (rowsOf (tblName T)
                        (deleteWhere schema users (whereEq "id" (VText "u1")) library)))
           ownedTables.
Proof.
  split; [vm_compute; reflexivity|].
  apply (user_delete_cascades library "u1"). vm_compute; reflexivity.
Defined.

(** ** Deleting a bookmark *)

Lemma extends_bookmark (T : table) :
  In T subRecordTables →
  In T schema
  ∧ In ["id"] (uniqueKeys T)
  ∧ In (tblName T, "id", Reference "bookmarks" "id" cascade)
       (incoming schema "bookmarks")
  ∧ blanked schema (tblName T) "id" = false.
Proof.
  intros HT. simpl in HT.
  repeat (destruct HT as [<-|HT]; [split; [|split; [|split]]; in_list|]).
  destruct HT.
Qed.

(** C5. Deleting the bookmark with id [b] leaves no row keyed by [b] in
    bookmarkLinks, bookmarkTexts and bookmarkAssets. *)
Theorem bookmark_delete_cascades (db : database) (b : string) :
  existsb (whereEq "id" (VText b)) (rowsOf "bookmarks" db) = true →
  Forall (fun T =>
            Forall (fun r => get "id" r ≠ VText b)
                   (rowsOf (tblName T)
                      (deleteWhere schema bookmarks (whereEq "id" (VText b)) db)))
         subRecordTables.
Proof.
  intros Hbm. apply existsb_exists in Hbm as (bm & Hbm & Hid).
  apply bool_decide_eq_true in Hid.
  apply List.Forall_forall. intros T HT.
  apply List.Forall_forall. intros r Hr.
  destruct (extends_bookmark T HT) as (_ & _ & Hin & Hnb).
  rewrite deleteWhere_18 in Hr.
  exact (cascade_clears schema 16 "bookmarks" (tblName T) "id" _ (VText b)
           db bm r Hin eq_refl Hnb ltac:(discriminate) Hbm Hid Hr).
Qed.

Lemma bookmark_delete_cascades_witness :
  existsb (whereEq "id" (VText "b1")) (rowsOf "bookmarks" library) = true
  ∧ Forall (fun T =>
              Forall (fun r => get "id" r ≠ VText "b1")
                     (rowsOf (tblName T)
                        (deleteWhere schema bookmarks (whereEq "id" (VText "b1")) library)))
           subRecordTables.
Proof.
  split; [vm_compute; reflexivity|].
  apply (bookmark_delete_cascades library "b1"). vm_compute; reflexivity.
Defined.

(** ** Deleting a list *)

Lemma In_decide (x : row) (l : list row) : bool_decide (x ∈ l) = true → In x l.
Proof. intros H. apply list_elem_of_In. by apply bool_decide_eq_true in H. Qed.

Lemma incoming_bookmarkLists :
  incoming schema "bookmarkLists" =
  [ ("bookmarkLists", "parentId", Reference "bookmarkLists" "id" setNull);
    ("bookmarksInLists", "listId", Reference "bookmarkLists" "id" cascade) ].
Proof. vm_compute. reflexivity. Qed.

Lemma incoming_bookmarksInLists : incoming schema "bookmarksInLists" = [].
Proof. vm_compute. reflexivity. Qed.

(** What is left of [bookmarkLists] after deleting from it: the rows that
    were not deleted, each with a [parentId] naming a deleted list blanked. *)
Lemma delete_lists_rows (victim : row → bool) (db : database) :
  rowsOf "bookmarkLists" (deleteWhere schema bookmarkLists victim db) =
  map (nullify "parentId"
         (map (get "id") (List.filter victim (rowsOf "bookmarkLists" db))))
      (List.filter (fun r => negb (victim r)) (rowsOf "bookmarkLists" db)).
Proof.
  rewrite deleteWhere_18. change (tblName bookmarkLists) with "bookmarkLists".
  rewrite (deleteRows_S 17), incoming_bookmarkLists.
  cbn [fold_left]. unfold react at 1. cbn [fst snd onDelete refColumn].
  rewrite (deleteRows_S 16), incoming_bookmarksInLists. cbn [fold_left].
  rewrite rowsOf_insert_ne by discriminate.
  unfold react. cbn [fst snd onDelete refColumn].
  rewrite !rowsOf_insert_eq. reflexivity.
Qed.

(** C6 (amended). Let [L] be a list whose [parentId] names another list
    [p] (not [L] itself).  Deleting [p] keeps [L], with [parentId] set to
    NULL and every other field as it was. *)
Theorem parent_delete_sets_null (db : database) (L : row) (p : string) :
  In L (rowsOf "bookmarkLists" db) →
  get "parentId" L = VText p →
  get "id" L ≠ VText p →
  existsb (whereEq "id" (VText p)) (rowsOf "bookmarkLists" db) = true →
  ∃ L', In L' (rowsOf "bookmarkLists"
                 (deleteWhere schema bookmarkLists (whereEq "id" (VText p)) db))
        ∧ L' = <["parentId" := VNull]> L
        ∧ get "parentId" L' = VNull
        ∧ Forall (fun c => get c L' = get c L)
                 ["id"; "name"; "icon"; "createdAt"; "userId"].
Proof.
  intros HL Hparent Hself Hp. exists (<["parentId" := VNull]> L).
  split; [|split; [reflexivity|split; [apply get_insert_eq|]]].
  - rewrite delete_lists_rows. apply in_map_iff. exists L. split.
    + unfold nullify.
      assert (refersTo (map (get "id")
                          (List.filter (whereEq "id" (VText p))
                                       (rowsOf "bookmarkLists" db)))
                       (get "parentId" L) = true) as ->; [|reflexivity].
      apply refersTo_spec. rewrite Hparent. split; [discriminate|].
      apply existsb_exists in Hp as (P & HP & HPid).
      apply in_map_iff. exists P. split.
      * by apply bool_decide_eq_true in HPid.
      * apply filter_In. done.
    + apply filter_In. split; [done|]. apply negb_true_iff.
      by apply bool_decide_eq_false.
  - repeat (constructor; [apply get_insert_ne; discriminate|]). constructor.
Qed.

Lemma parent_delete_sets_null_witness :
  ∃ L', In L' (rowsOf "bookmarkLists"
                 (deleteWhere schema bookmarkLists (whereEq "id" (VText "l1")) library))
        ∧ L' = <["parentId" := VNull]> (listRow "l2" "u1" "sub" (VText "l1"))
        ∧ get "parentId" L' = VNull
        ∧ Forall (fun c => get c L' = get c (listRow "l2" "u1" "sub" (VText "l1")))
                 ["id"; "name"; "icon"; "createdAt"; "userId"].
Proof.
  apply (parent_delete_sets_null library (listRow "l2" "u1" "sub" (VText "l1")) "l1").
  - apply In_decide. vm_compute. reflexivity.
  - vm_compute. reflexivity.
  - vm_compute. discriminate.
  - vm_compute. reflexivity.
Defined.

(** C6, as stated, fails for a list that is its own parent: deleting the
    parent deletes that very list. *)
Lemma self_parent_deleted_with_parent :
  db_ok schema selfParent = true
  ∧ rowsOf "bookmarkLists" selfParent = [listRow "l1" "u1" "loop" (VText "l1")]
  ∧ get "parentId" (listRow "l1" "u1" "loop" (VText "l1")) = VText "l1"
  ∧ rowsOf "bookmarkLists"
      (deleteWhere schema bookmarkLists (whereEq "id" (VText "l1")) selfParent)
    = [].
Proof. repeat split; vm_compute; reflexivity. Qed.

(** ** Keys of the join and import tables *)

Lemma notNullKey_spec (T : table) (cs : list string) :
  notNullKey T cs = true →
  ∀ c, In c cs → ∃ col, In (c, col) (tblColumns T) ∧ colNotNull col = true.
Proof.
  unfold notNullKey. rewrite forallb_forall. intros H c Hc.
  specialize (H c Hc). apply existsb_exists in H as ([c' col] & Hin & Hcol).
  simpl in Hcol. apply andb_true_iff in Hcol as [Heq Hnn].
  apply bool_decide_eq_true in Heq. subst c'. eauto.
Qed.

(** C7. In a state satisfying the schema, two rows of rssFeedImports with
    the same [rssFeedId] and [entryId] are the same row, and inserting a
    row whose feed and entry id are those of a stored row is refused. *)
Theorem feed_imports_deduplicated (db : database) :
  db_ok schema db = true →
  (∀ i j r1 r2,
     rowsOf "rssFeedImports" db !! i = Some r1 →
     rowsOf "rssFeedImports" db !! j = Some r2 →
     get "rssFeedId" r1 = get "rssFeedId" r2 →
     get "entryId" r1 = get "entryId" r2 → i = j)
  ∧ (∀ k values r,
       In r (rowsOf "rssFeedImports" db) →
       values !! "rssFeedId" = Some (get "rssFeedId" r) →
       values !! "entryId" = Some (get "entryId" r) →
       ∃ e, insert k rssFeedImportsTable values db = inl e).
Proof.
  intros Hok.
  assert (HT : In rssFeedImportsTable schema) by in_list.
  assert (Hkey : In ["rssFeedId"; "entryId"] (uniqueKeys rssFeedImportsTable))
    by in_list.
  pose proof (notNullKey_spec rssFeedImportsTable ["rssFeedId"; "entryId"]
                eq_refl) as Hnn.
  split.
  - intros i j r1 r2 Hi Hj Hfeed Hentry.
    apply (key_identifies schema db rssFeedImportsTable _ Hok HT Hkey Hnn
             i j r1 r2 Hi Hj).
    intros c [<-|[<-|[]]]; assumption.
  - intros k values r Hr Hfeed Hentry.
    apply (key_insert_refused schema db rssFeedImportsTable _ Hok HT Hkey Hnn
             k values r (columns_NoDup _ HT) Hr).
    intros c [<-|[<-|[]]]; assumption.
Qed.

Lemma feed_imports_deduplicated_witness :
  db_ok schema library = true
  ∧ (∀ i j r1 r2,
       rowsOf "rssFeedImports" library !! i = Some r1 →
       rowsOf "rssFeedImports" library !! j = Some r2 →
       get "rssFeedId" r1 = get "rssFeedId" r2 →
       get "entryId" r1 = get "entryId" r2 → i = j)
  ∧ (∀ k values r,
       In r (rowsOf "rssFeedImports" library) →
       values !! "rssFeedId" = Some (get "rssFeedId" r) →
       values !! "entryId" = Some (get "entryId" r) →
       ∃ e, insert k rssFeedImportsTable values library = inl e).
Proof.
  assert (H : db_ok schema library = true) by (vm_compute; reflexivity).
  exact (conj H (feed_imports_deduplicated library H)).
Defined.

(** C9. In a state satisfying the schema, two rows of tagsOnBookmarks with
    the same [bookmarkId] and [tagId] are the same row, and attaching a tag
    to a bookmark that already carries it is refused. *)
Theorem tag_attached_once (db : database) :
  db_ok schema db = true →
  (∀ i j r1 r2,
     rowsOf "tagsOnBookmarks" db !! i = Some r1 →
     rowsOf "tagsOnBookmarks" db !! j = Some r2 →
     get "bookmarkId" r1 = get "bookmarkId" r2 →
     get "tagId" r1 = get "tagId" r2 → i = j)
  ∧ (∀ k values r,
       In r (rowsOf "tagsOnBookmarks" db) →
       values !! "bookmarkId" = Some (get "bookmarkId" r) →
       values !! "tagId" = Some (get "tagId" r) →
       ∃ e, insert k tagsOnBookmarks values db = inl e).
Proof.
  intros Hok.
  assert (HT : In tagsOnBookmarks schema) by in_list.
  assert (Hkey : In ["bookmarkId"; "tagId"] (uniqueKeys tagsOnBookmarks))
    by in_list.
  pose proof (notNullKey_spec tagsOnBookmarks ["bookmarkId"; "tagId"] eq_refl)
    as Hnn.
  split.
  - intros i j r1 r2 Hi Hj Hb Ht.
    apply (key_identifies schema db tagsOnBookmarks _ Hok HT Hkey Hnn
             i j r1 r2 Hi Hj).
    intros c [<-|[<-|[]]]; assumption.
  - intros k values r Hr Hb Ht.
    apply (key_insert_refused schema db tagsOnBookmarks _ Hok HT Hkey Hnn
             k values r (columns_NoDup _ HT) Hr).
    intros c [<-|[<-|[]]]; assumption.
Qed.

Lemma tag_attached_once_witness :
  db_ok schema library = true
  ∧ (∀ i j r1 r2,
       rowsOf "tagsOnBookmarks" library !! i = Some r1 →
       rowsOf "tagsOnBookmarks" library !! j = Some r2 →
       get "bookmarkId" r1 = get "bookmarkId" r2 →
       get "tagId" r1 = get "tagId" r2 → i = j)
  ∧ (∀ k values r,
       In r (rowsOf "tagsOnBookmarks" library) →
       values !! "bookmarkId" = Some (get "bookmarkId" r) →
       values !! "tagId" = Some (get "tagId" r) →
       ∃ e, insert k tagsOnBookmarks values library = inl e).
Proof.
  assert (H : db_ok schema library = true) by (vm_compute; reflexivity).
  exact (conj H (tag_attached_once library H)).
Defined.

(** ** Defaults of a new bookmark *)

(** When no constraint is violated the row is appended to its table. *)
Lemma insert_accepts (k : clock) (T : table) (values : row) (db : database) :
  notNullOk T (fillRow k T values) = true →
  existsb (fun cs => existsb (fun r0 => agree cs r0 (fillRow k T values))
                             (rowsOf (tblName T) db)) (uniqueKeys T) = false →
  forallb (fkOk (<[tblName T := rowsOf (tblName T) db ++ [fillRow k T values]]> db)
                (fillRow k T values)) (foreignKeys T) = true →
  insert k T values db
  = inr (<[tblName T := rowsOf (tblName T) db ++ [fillRow k T values]]> db).
Proof. intros Hnn Huniq Hfk. unfold insert. rewrite Hnn, Huniq, Hfk. reflexivity. Qed.

(** C8. A bookmark inserted without [archived], [favourited],
    [taggingStatus] and [createdAt] is stored unarchived, unfavourited,
    pending tagging and dated by the clock of the insert. *)
Theorem bookmark_insert_defaults (k : clock) (values : row)
    (db db' : database) :
  values !! "archived" = None →
  values !! "favourited" = None →
  values !! "taggingStatus" = None →
  values !! "createdAt" = None →
  insert k bookmarks values db = inr db' →
  ∃ r, rowsOf "bookmarks" db' = rowsOf "bookmarks" db ++ [r]
       ∧ get "archived" r = VBool false
       ∧ get "favourited" r = VBool false
       ∧ get "taggingStatus" r = VText "pending"
       ∧ get "createdAt" r = VDate (now k).
Proof.
  intros Harch Hfav Htag Hcreated Hins.
  apply insert_inr in Hins as [-> _].
  exists (fillRow k bookmarks values).
  assert (HT : In bookmarks schema) by in_list.
  pose proof (columns_NoDup bookmarks HT) as Hnd.
  split; [apply rowsOf_insert_eq|].
  repeat split.
  - rewrite (fillRow_lookup k bookmarks values "archived"
               (integer "archived" boolean |> notNull |> default_ (VBool false)) Hnd)
      by in_list.
    unfold fillColumn. cbn [fst snd]. rewrite Harch. reflexivity.
  - rewrite (fillRow_lookup k bookmarks values "favourited"
               (integer "favourited" boolean |> notNull |> default_ (VBool false)) Hnd)
      by in_list.
    unfold fillColumn. cbn [fst snd]. rewrite Hfav. reflexivity.
  - rewrite (fillRow_lookup k bookmarks values "taggingStatus"
               (textEnum "taggingStatus" ["pending"; "failure"; "success"]
                  |> default_ (VText "pending")) Hnd)
      by in_list.
    unfold fillColumn. cbn [fst snd]. rewrite Htag. reflexivity.
  - rewrite (fillRow_lookup k bookmarks values "createdAt" createdAtField Hnd)
      by in_list.
    unfold fillColumn. cbn [fst snd]. rewrite Hcreated. reflexivity.
Qed.

Lemma bookmark_insert_defaults_witness :
  ∃ db',
    insert (Clock "b9" 1700001000) bookmarks
           (mkRow [("userId", VText "u1"); ("type", VText "link")]) library
      = inr db'
    ∧ ∃ r, rowsOf "bookmarks" db' = rowsOf "bookmarks" library ++ [r]
           ∧ get "archived" r = VBool false
           ∧ get "favourited" r = VBool false
           ∧ get "taggingStatus" r = VText "pending"
           ∧ get "createdAt" r = VDate 1700001000.
Proof.
  eexists. split.
  - apply insert_accepts; vm_compute; reflexivity.
  - apply (bookmark_insert_defaults (Clock "b9" 1700001000)
             (mkRow [("userId", VText "u1"); ("type", VText "link")]) library);
      [vm_compute; reflexivity..|].
    apply insert_accepts; vm_compute; reflexivity.
Defined.

(** ** Sub-records of a bookmark *)

(** C2 (amended). In a state satisfying the schema, each of bookmarkLinks,
    bookmarkTexts and bookmarkAssets holds at most one row keyed by a given
    bookmark id. *)
Theorem one_row_per_extension_table (db : database) (b : string) :
  db_ok schema db = true →
  Forall (fun T =>
            (length (List.filter (whereEq "id" (VText b))
                                 (rowsOf (tblName T) db)) ≤ 1)%nat)
         subRecordTables.
Proof.
  intros Hok. apply List.Forall_forall. intros T HT.
  destruct (extends_bookmark T HT) as (HTs & Hkey & _ & _).
  apply distinctOn_count; [|discriminate].
  exact (db_ok_distinct schema db Hok T ["id"] HTs Hkey).
Qed.

Lemma one_row_per_extension_table_witness :
  db_ok schema linkAndText = true
  ∧ Forall (fun T =>
              (length (List.filter (whereEq "id" (VText "b1"))
                                   (rowsOf (tblName T) linkAndText)) ≤ 1)%nat)
           subRecordTables.
Proof.
  assert (H : db_ok schema linkAndText = true) by (vm_compute; reflexivity).
  exact (conj H (one_row_per_extension_table linkAndText "b1" H)).
Defined.

(** C2, as stated, fails: the schema accepts a bookmark with both a link
    and a text sub-record. *)
Lemma link_and_text_coexist :
  db_ok schema linkAndText = true
  ∧ hasSubRecord linkAndText "b1" bookmarkLinks = true
  ∧ hasSubRecord linkAndText "b1" bookmarkTexts = true
  ∧ ¬ (subRecordKinds linkAndText "b1" ≤ 1)%nat.
Proof.
  split; [vm_compute; reflexivity|].
  split; [vm_compute; reflexivity|].
  split; [vm_compute; reflexivity|].
  assert (subRecordKinds linkAndText "b1" = 2%nat) as -> by (vm_compute; reflexivity).
  lia.
Qed.

(** ** Identifiers *)

Lemma id_key_notNull (T : table) :
  In T schema → In ["id"] (uniqueKeys T) → notNullKey T ["id"] = true.
Proof.
  intros HT Hkey.
  assert (negb (bool_decide (["id"] ∈ uniqueKeys T)) || notNullKey T ["id"] = true)
    as Hcheck.
  { revert T HT Hkey. intros T HT _. revert T HT.
    apply forallb_forall. vm_compute. reflexivity. }
  apply orb_true_iff in Hcheck as [Hno|Hyes]; [|done].
  apply negb_true_iff, bool_decide_eq_false in Hno.
  destruct Hno. by apply list_elem_of_In.
Qed.

(** C3 (amended). In a state satisfying the schema, within every table
    whose primary key is its [id] column no two rows share an id. *)
Theorem ids_unique_within_table (db : database) (T : table) (i j : nat)
    (r1 r2 : row) :
  db_ok schema db = true →
  In T schema → In ["id"] (uniqueKeys T) →
  rowsOf (tblName T) db !! i = Some r1 →
  rowsOf (tblName T) db !! j = Some r2 →
  get "id" r1 = get "id" r2 → i = j.
Proof.
  intros Hok HT Hkey Hi Hj Hid.
  apply (key_identifies schema db T ["id"] Hok HT Hkey
           (notNullKey_spec T ["id"] (id_key_notNull T HT Hkey)) i j r1 r2 Hi Hj).
  intros c [<-|[]]. exact Hid.
Qed.

Lemma ids_unique_within_table_witness :
  db_ok schema library = true
  ∧ In bookmarks schema ∧ In ["id"] (uniqueKeys bookmarks)
  ∧ rowsOf "bookmarks" library !! 1%nat = Some (bookmarkRow "b2" "u1" "text")
  ∧ get "id" (bookmarkRow "b2" "u1" "text") = get "id" (bookmarkRow "b2" "u1" "text")
  ∧ 1%nat = 1%nat.
Proof.
  assert (H1 : db_ok schema library = true) by (vm_compute; reflexivity).
  assert (H2 : In bookmarks schema) by in_list.
  assert (H3 : In ["id"] (uniqueKeys bookmarks)) by in_list.
  assert (H4 : rowsOf "bookmarks" library !! 1%nat
               = Some (bookmarkRow "b2" "u1" "text"))
    by (refine (bool_decide_eq_true_1 _ _); vm_compute; reflexivity).
  exact (conj H1 (conj H2 (conj H3 (conj H4 (conj eq_refl
    (ids_unique_within_table library bookmarks 1 1 _ _ H1 H2 H3 H4 H4 eq_refl)))))).
Defined.

(** C3, as stated, fails: a link sub-record carries the id of its
    bookmark, so two rows of different tables share an id. *)
Lemma link_shares_bookmark_id :
  db_ok schema library = true ∧ ¬ idsGloballyUnique schema library.
Proof.
  split; [vm_compute; reflexivity|]. intros Huniq.
  destruct (Huniq bookmarks bookmarkLinks 0%nat 0%nat
              (bookmarkRow "b1" "u1" "link") (linkRow "b1" "https://example.org/"))
    as [Hsame _].
  - in_list.
  - in_list.
  - refine (bool_decide_eq_true_1 _ _). vm_compute. reflexivity.
  - refine (bool_decide_eq_true_1 _ _). vm_compute. reflexivity.
  - vm_compute. discriminate.
  - vm_compute. reflexivity.
  - discriminate Hsame.
Qed.

(** ** The list hierarchy *)

(** C4. The schema accepts a list that is its own parent, and two lists
    that are each other's parent: in both states a list is its own
    ancestor. *)
Theorem list_cycles_allowed :
  (∃ db l, db_ok schema db = true
           ∧ get "parentId" l = get "id" l ∧ ancestor db l l)
  ∧ (∃ db l1 l2, db_ok schema db = true
                 ∧ get "id" l1 ≠ get "id" l2
                 ∧ parentOf db l1 l2 ∧ parentOf db l2 l1 ∧ ancestor db l1 l1).
Proof.
  split.
  - exists selfParent, (listRow "l1" "u1" "loop" (VText "l1")).
    split; [vm_compute; reflexivity|]. split; [vm_compute; reflexivity|].
    apply ancestor_parent. unfold parentOf.
    split; [apply In_decide; vm_compute; reflexivity|].
    split; [apply In_decide; vm_compute; reflexivity|].
    split; [vm_compute; discriminate|vm_compute; reflexivity].
  - exists twoCycle, (listRow "l1" "u1" "ping" (VText "l2")),
           (listRow "l2" "u1" "pong" (VText "l1")).
    assert (H12 : parentOf twoCycle (listRow "l1" "u1" "ping" (VText "l2"))
                           (listRow "l2" "u1" "pong" (VText "l1"))).
    { unfold parentOf.
      split; [apply In_decide; vm_compute; reflexivity|].
      split; [apply In_decide; vm_compute; reflexivity|].
      split; [vm_compute; discriminate|vm_compute; reflexivity]. }
    assert (H21 : parentOf twoCycle (listRow "l2" "u1" "pong" (VText "l1"))
                           (listRow "l1" "u1" "ping" (VText "l2"))).
    { unfold parentOf.
      split; [apply In_decide; vm_compute; reflexivity|].
      split; [apply In_decide; vm_compute; reflexivity|].
      split; [vm_compute; discriminate|vm_compute; reflexivity]. }
    split; [vm_compute; reflexivity|]. split; [vm_compute; discriminate|].
    split; [exact H12|]. split; [exact H21|].
    eapply ancestor_further; [exact H12|]. apply ancestor_parent. exact H21.
Qed.

(** ** Saving the current tab *)

(** C10. When the tab query yields no tab, or a first tab whose [url] is
    undefined or empty, [runSave] issues no [createBookmark] request and
    records the error "Couldn't find the URL of the current tab"; otherwise
    it issues exactly one request, of type "link" for the tab's URL, and
    leaves the error as it was. *)
Theorem runSave_spec (queryResult : list SavePage.Tab) (st : SavePage.state) :
  ((queryResult = []
    ∨ ∃ t rest, queryResult = t :: rest
                ∧ (SavePage.url t = None ∨ SavePage.url t = Some EmptyString)) →
   SavePage.createBookmarkCalls (SavePage.runSave queryResult st).2
     = SavePage.createBookmarkCalls st
   ∧ SavePage.error (SavePage.runSave queryResult st).2
     = Some "Couldn't find the URL of the current tab")
  ∧ (∀ t rest u,
       queryResult = t :: rest → SavePage.url t = Some u → u ≠ EmptyString →
       SavePage.createBookmarkCalls (SavePage.runSave queryResult st).2
         = SavePage.createBookmarkCalls st
             ++ [ {| SavePage.type := "link"; SavePage.bookmarkUrl := u |} ]
       ∧ SavePage.error (SavePage.runSave queryResult st).2 = SavePage.error st).
Proof.
  split.
  - intros [->|(t & rest & -> & [Hu|Hu])]; unfold SavePage.runSave; simpl;
      try rewrite Hu; simpl; split; reflexivity.
  - intros t rest u -> Hu Hne. unfold SavePage.runSave. simpl. rewrite Hu.
    destruct u as [|a u]; [done|]. simpl. split; reflexivity.
Qed.

Lemma runSave_spec_witness :
  (SavePage.createBookmarkCalls
     (SavePage.runSave [ {| SavePage.url := None |} ]
        {| SavePage.error := None; SavePage.createBookmarkCalls := [] |}).2 = []
   ∧ SavePage.error
       (SavePage.runSave [ {| SavePage.url := None |} ]
          {| SavePage.error := None; SavePage.createBookmarkCalls := [] |}).2
     = Some "Couldn't find the URL of the current tab")
  ∧ (SavePage.createBookmarkCalls
       (SavePage.runSave [ {| SavePage.url := Some "https://example.org/" |} ]
          {| SavePage.error := None; SavePage.createBookmarkCalls := [] |}).2
     = [ {| SavePage.type := "link";
            SavePage.bookmarkUrl := "https://example.org/" |} ]
     ∧ SavePage.error
         (SavePage.runSave [ {| SavePage.url := Some "https://example.org/" |} ]
            {| SavePage.error := None; SavePage.createBookmarkCalls := [] |}).2
       = None).
Proof.
  split.
  - apply (proj1 (runSave_spec [ {| SavePage.url := None |} ]
             {| SavePage.error := None; SavePage.createBookmarkCalls := [] |})).
    right. exists {| SavePage.url := None |}, []. split; [reflexivity|].
    left. reflexivity.
  - apply (proj2 (runSave_spec
             [ {| SavePage.url := Some "https://example.org/" |} ]
             {| SavePage.error := None; SavePage.createBookmarkCalls := [] |})
             {| SavePage.url := Some "https://example.org/" |} []
             "https://example.org/"); [reflexivity|reflexivity|discriminate].
Defined.

(** ** Deleting keeps the database valid *)

Lemma schema_sane : schemaSane schema = true.
Proof. vm_compute. reflexivity. Qed.

Section Shrinking.
Variable S : list table.

Lemma nulled_trans (x : string) (r1 r2 r3 : row) :
  nulled S x r1 r2 → nulled S x r2 r3 → nulled S x r1 r3.
Proof.
  intros H12 H23. induction H23 as [|r2 r3 c H23 IH Hc]; [done|].
  apply nulled_blank; auto.
Qed.

Lemma nulled_get (x : string) (r r' : row) :
  nulled S x r r' →
  ∀ c, get c r' = get c r ∨ (blanked S x c = true ∧ get c r' = VNull).
Proof.
  induction 1 as [|r r' c0 Hn IH Hc0]; intros c; [by left|].
  destruct (decide (c0 = c)) as [<-|Hne].
  - right. split; [done|]. apply get_insert_eq.
  - rewrite get_insert_ne by done. apply IH.
Qed.

Lemma nulled_get_kept (x : string) (r r' : row) (c : string) :
  nulled S x r r' → get c r' ≠ VNull → get c r' = get c r.
Proof.
  intros Hn Hnn. destruct (nulled_get x r r' Hn c) as [Heq|[_ Hnull]]; [done|].
  by rewrite Hnull in Hnn.
Qed.

Lemma nulled_get_fixed (x : string) (r r' : row) (c : string) :
  nulled S x r r' → blanked S x c = false → get c r' = get c r.
Proof.
  intros Hn Hnb. destruct (nulled_get x r r' Hn c) as [Heq|[Hb _]]; [done|].
  congruence.
Qed.

Lemma nulled_nullify (x c : string) (keys : list value) (r : row) :
  blanked S x c = true → nulled S x r (nullify c keys r).
Proof.
  intros Hb. unfold nullify. destruct (refersTo keys (get c r)).
  - apply nulled_blank; [apply nulled_same|done].
  - apply nulled_same.
Qed.

Lemma thins_refl (x : string) (rs : list row) : thins S x rs rs.
Proof.
  induction rs as [|r rs IH]; [apply thins_nil|].
  apply thins_keep; [apply nulled_same|done].
Qed.

Lemma thins_trans (x : string) (rs1 rs2 rs3 : list row) :
  thins S x rs1 rs2 → thins S x rs2 rs3 → thins S x rs1 rs3.
Proof.
  intros H12. revert rs3.
  induction H12 as [|r rs1 rs2 H12 IH|r r' rs1 rs2 Hn H12 IH]; intros rs3 H23.
  - done.
  - apply thins_drop. auto.
  - inversion H23 as [|? ? ? H23'|? r3 ? rs3' Hn' H23']; subst.
    + apply thins_drop. auto.
    + apply thins_keep; [by eapply nulled_trans|auto].
Qed.

Lemma thins_filter (x : string) (keep : row → bool) (rs : list row) :
  thins S x rs (List.filter keep rs).
Proof.
  induction rs as [|r rs IH]; simpl; [apply thins_nil|].
  destruct (keep r).
  - apply thins_keep; [apply nulled_same|done].
  - by apply thins_drop.
Qed.

Lemma thins_nullify (x c : string) (keys : list value) (rs : list row) :
  blanked S x c = true → thins S x rs (map (nullify c keys) rs).
Proof.
  intros Hb. induction rs as [|r rs IH]; simpl; [apply thins_nil|].
  apply thins_keep; [by apply nulled_nullify|done].
Qed.

Lemma thins_In (x : string) (rs rs' : list row) (r' : row) :
  thins S x rs rs' → In r' rs' → ∃ r, In r rs ∧ nulled S x r r'.
Proof.
  induction 1 as [|r rs rs' Ht IH|r r1 rs rs' Hn Ht IH]; intros Hin.
  - destruct Hin.
  - destruct (IH Hin) as (r0 & Hr0 & Hn0). exists r0. split; [by right|done].
  - destruct Hin as [<-|Hin].
    + exists r. split; [by left|done].
    + destruct (IH Hin) as (r0 & Hr0 & Hn0). exists r0. split; [by right|done].
Qed.

Lemma shrinks_refl (db : database) : shrinks S db db.
Proof. intros x. apply thins_refl. Qed.

Lemma shrinks_trans (d1 d2 d3 : database) :
  shrinks S d1 d2 → shrinks S d2 d3 → shrinks S d1 d3.
Proof. intros H12 H23 x. eapply thins_trans; eauto. Qed.

Lemma shrinks_filter (t : string) (keep : row → bool) (db : database) :
  shrinks S db (<[t := List.filter keep (rowsOf t db)]> db).
Proof.
  intros x. destruct (decide (t = x)) as [<-|Hne].
  - rewrite rowsOf_insert_eq. apply thins_filter.
  - rewrite rowsOf_insert_ne by done. apply thins_refl.
Qed.

Lemma react_shrinks (del : string → (row → bool) → database → database)
    (gone : list row) (t : string) (db : database)
    (fk : string * string * reference) :
  (∀ x victim d, shrinks S d (del x victim d)) →
  In fk (incoming S t) →
  shrinks S db (react del gone db fk).
Proof.
  intros Hdel Hin. destruct fk as [[x c] ref]. unfold react. simpl.
  destruct (onDelete ref) eqn:Hact; [apply Hdel|].
  intros y. destruct (decide (x = y)) as [<-|Hne].
  - rewrite rowsOf_insert_eq. apply thins_nullify.
    exact (blanked_setNull S t x c ref Hin Hact).
  - rewrite rowsOf_insert_ne by done. apply thins_refl.
Qed.

Lemma fold_react_shrinks (del : string → (row → bool) → database → database)
    (gone : list row) (t : string) (fks : list (string * string * reference)) :
  (∀ x victim d, shrinks S d (del x victim d)) →
  (∀ fk, In fk fks → In fk (incoming S t)) →
  ∀ db, shrinks S db (fold_left (react del gone) fks db).
Proof.
  intros Hdel. induction fks as [|fk fks IH]; intros Hsub db; simpl.
  - apply shrinks_refl.
  - eapply shrinks_trans.
    + eapply react_shrinks; [done|]. apply Hsub. by left.
    + apply IH. intros fk' Hfk'. apply Hsub. by right.
Qed.

(** A delete only drops rows and blanks [set null] columns, table by
    table and in order. *)
Lemma deleteRows_shrinks (n : nat) :
  ∀ t victim db, shrinks S db (deleteRows n S t victim db).
Proof.
  induction n as [|n IH]; intros t victim db; simpl.
  - apply shrinks_refl.
  - eapply shrinks_trans; [apply shrinks_filter|].
    apply (fold_react_shrinks _ _ t); auto.
Qed.
End Shrinking.

(** *** What a sane schema guarantees *)

Lemma blanked_spec (S : list table) (x c : string) :
  blanked S x c = true ↔
  ∃ T ref, In T S ∧ tblName T = x ∧ In (c, ref) (foreignKeys T)
           ∧ onDelete ref = setNull.
Proof.
  unfold blanked. rewrite existsb_exists. split.
  - intros (T & HT & H). apply andb_true_iff in H as [Hname Hex].
    apply bool_decide_eq_true in Hname.
    apply existsb_exists in Hex as ([c' ref] & Hfk & H). simpl in H.
    apply andb_true_iff in H as [Hc Hact]. apply bool_decide_eq_true in Hc.
    subst c'. exists T, ref. repeat split; try done.
    by destruct (onDelete ref).
  - intros (T & ref & HT & Hname & Hfk & Hact). exists T. split; [done|].
    apply andb_true_iff. split; [by apply bool_decide_eq_true|].
    apply existsb_exists. exists (c, ref). split; [done|]. simpl.
    rewrite Hact. apply andb_true_iff. split; [by apply bool_decide_eq_true|done].
Qed.

Lemma foreignKeys_column (T : table) (c : string) (ref : reference) :
  In (c, ref) (foreignKeys T) →
  ∃ col, In (c, col) (tblColumns T) ∧ colReferences col = Some ref.
Proof.
  unfold foreignKeys. rewrite in_flat_map. intros ([c' col] & Hin & H).
  simpl in H. destruct (colReferences col) as [ref'|] eqn:Href; [|done].
  destruct H as [[= <- <-]|[]]. eauto.
Qed.

Lemma allForeignKeys_spec (S : list table) (x c : string) (ref : reference) :
  In (x, c, ref) (allForeignKeys S) ↔
  ∃ T, In T S ∧ tblName T = x ∧ In (c, ref) (foreignKeys T).
Proof.
  unfold allForeignKeys. rewrite in_flat_map. split.
  - intros (T & HT & Hin). apply in_map_iff in Hin as ([c' ref'] & [= <- <- <-] & Hfk).
    eauto.
  - intros (T & HT & <- & Hfk). exists T. split; [done|].
    apply in_map_iff. exists (c, ref). done.
Qed.

Lemma incoming_allForeignKeys (S : list table) (x c : string) (ref : reference) :
  In (x, c, ref) (allForeignKeys S) → In (x, c, ref) (incoming S (refTable ref)).
Proof.
  intros Hin. apply allForeignKeys_spec in Hin as (T & HT & Hname & Hfk).
  apply incoming_spec. eauto.
Qed.

Section Sane.
Variable S : list table.
Hypothesis Hsane : schemaSane S = true.

Lemma sane_names : NoDup (map tblName S).
Proof.
  unfold schemaSane in Hsane. rewrite !andb_true_iff in Hsane.
  destruct Hsane as [[[H _] _] _]. by apply bool_decide_eq_true in H.
Qed.

Lemma sane_same_table (T T' : table) :
  In T S → In T' S → tblName T = tblName T' → T = T'.
Proof.
  intros HT HT' Hname. pose proof sane_names as Hnd.
  apply list_elem_of_In in HT, HT'.
  apply list_elem_of_lookup in HT as [i Hi].
  apply list_elem_of_lookup in HT' as [j Hj].
  assert (i = j) as ->; [|congruence].
  apply (NoDup_lookup _ i j (tblName T) Hnd).
  - by rewrite list_lookup_fmap, Hi.
  - by rewrite list_lookup_fmap, Hj, Hname.
Qed.

Lemma sane_columns (T : table) : In T S → NoDup (columnKeys T).
Proof.
  intros HT. unfold schemaSane in Hsane. rewrite !andb_true_iff in Hsane.
  destruct Hsane as [[[_ H] _] _]. rewrite forallb_forall in H.
  specialize (H T HT). by apply bool_decide_eq_true in H.
Qed.

Lemma sane_edge (e : string * string * reference) :
  In e (allForeignKeys S) →
  blanked S (refTable e.2) (refColumn e.2) = false
  ∧ (onDelete e.2 = cascade → blanked S e.1.1 e.1.2 = false)
  ∧ In (refTable e.2) (map tblName S).
Proof.
  intros He. unfold schemaSane in Hsane. rewrite !andb_true_iff in Hsane.
  destruct Hsane as [_ H]. rewrite forallb_forall in H. specialize (H e He).
  rewrite !andb_true_iff in H. destruct H as [[H1 H2] H3].
  apply negb_true_iff in H1. apply bool_decide_eq_true, list_elem_of_In in H3.
  repeat split; try done.
  intros Hact. rewrite Hact in H2. simpl in H2. by apply negb_true_iff in H2.
Qed.

(** A [set null] column is a declared, nullable column of its table. *)
Lemma sane_blanked (T : table) (c : string) :
  In T S → blanked S (tblName T) c = true →
  In c (columnKeys T)
  ∧ ∀ col, In (c, col) (tblColumns T) → colNotNull col = false.
Proof.
  intros HT Hb. apply blanked_spec in Hb as (T0 & ref & HT0 & Hname & Hfk & Hact).
  assert (T0 = T) as -> by (by apply sane_same_table).
  split.
  - destruct (foreignKeys_column T c ref Hfk) as (col & Hcol & _).
    unfold columnKeys. apply in_map_iff. exists (c, col). done.
  - intros col Hcol. unfold schemaSane in Hsane. rewrite !andb_true_iff in Hsane.
    destruct Hsane as [[_ H] _]. rewrite forallb_forall in H.
    specialize (H T HT). rewrite forallb_forall in H.
    specialize (H (c, ref) Hfk). simpl in H. rewrite Hact in H. simpl in H.
    unfold nullableIn in H. rewrite forallb_forall in H.
    specialize (H (c, col) Hcol). simpl in H.
    rewrite bool_decide_eq_true_2 in H by done. simpl in H.
    by apply negb_true_iff in H.
Qed.

(** *** Constraints of one table survive *)

Lemma shapeOk_spec (T : table) (r : row) :
  shapeOk T r = true ↔ ∀ c, is_Some (r !! c) → In c (columnKeys T).
Proof.
  unfold shapeOk. rewrite forallb_forall. split.
  - intros H c [v Hv]. specialize (H (c, v)). simpl in H.
    apply list_elem_of_In. eapply bool_decide_eq_true. apply H.
    apply list_elem_of_In. by apply elem_of_map_to_list.
  - intros H [c v] Hin. simpl. apply bool_decide_eq_true.
    apply list_elem_of_In, H. exists v.
    apply list_elem_of_In in Hin. by apply elem_of_map_to_list in Hin.
Qed.

Lemma notNullOk_spec (T : table) (r : row) :
  notNullOk T r = true ↔
  ∀ c col, In (c, col) (tblColumns T) → colNotNull col = true → get c r ≠ VNull.
Proof.
  unfold notNullOk. rewrite forallb_forall. split.
  - intros H c col Hin Hnn Hnull. specialize (H (c, col) Hin). simpl in H.
    rewrite Hnn, Hnull in H. done.
  - intros H [c col] Hin. simpl. destruct (colNotNull col) eqn:Hnn; [|done].
    simpl. specialize (H c col Hin Hnn). by destruct (get c r).
Qed.

Lemma nulled_shapeOk (T : table) (r r' : row) :
  In T S → nulled S (tblName T) r r' → shapeOk T r = true → shapeOk T r' = true.
Proof.
  intros HT Hn. induction Hn as [|r r' c Hn IH Hc]; [done|].
  intros Hr. specialize (IH Hr). rewrite shapeOk_spec in IH |- *.
  intros c' Hc'. destruct (decide (c = c')) as [<-|Hne].
  - by apply (sane_blanked T c HT Hc).
  - rewrite lookup_insert_ne in Hc' by done. auto.
Qed.

Lemma nulled_notNullOk (T : table) (r r' : row) :
  In T S → nulled S (tblName T) r r' →
  notNullOk T r = true → notNullOk T r' = true.
Proof.
  intros HT Hn. rewrite !notNullOk_spec. intros Hr c col Hcol Hnn.
  destruct (nulled_get S _ r r' Hn c) as [->|[Hb _]]; [eauto|].
  destruct (sane_blanked T c HT Hb) as [_ Hnullable].
  rewrite (Hnullable col Hcol) in Hnn. done.
Qed.

Lemma nulled_agree (x : string) (cs : list string) (r1 r1' r2 r2' : row) :
  nulled S x r1 r1' → nulled S x r2 r2' →
  agree cs r1' r2' = true → agree cs r1 r2 = true.
Proof.
  intros H1 H2. rewrite !agree_spec. intros Hag c Hc.
  destruct (Hag c Hc) as [Hnn Heq].
  rewrite <- (nulled_get_kept S x r1 r1' c H1 Hnn).
  rewrite <- (nulled_get_kept S x r2 r2' c H2) by (by rewrite <- Heq).
  done.
Qed.

Lemma thins_distinctOn (x : string) (cs : list string) (rs rs' : list row) :
  thins S x rs rs' → distinctOn cs rs = true → distinctOn cs rs' = true.
Proof.
  induction 1 as [|r rs rs' Ht IH|r r' rs rs' Hn Ht IH]; simpl; [done| |].
  - intros H. apply andb_true_iff in H as [_ H]. auto.
  - intros H. apply andb_true_iff in H as [Hhead Htail].
    apply andb_true_iff. split; [|auto].
    apply negb_true_iff. apply negb_true_iff in Hhead.
    destruct (existsb (agree cs r') rs') eqn:Hex; [|done].
    apply existsb_exists in Hex as (r0' & Hr0' & Hag).
    destruct (thins_In S x rs rs' r0' Ht Hr0') as (r0 & Hr0 & Hn0).
    rewrite <- Hhead. symmetry. apply existsb_exists. exists r0.
    split; [done|]. by apply (nulled_agree x cs r r' r0 r0').
Qed.
End Sane.

(** *** References survive *)

Lemma fkOk_spec (db : database) (r : row) (c : string) (ref : reference) :
  fkOk db r (c, ref) = true ↔ get c r = VNull ∨ hasParent db ref (get c r).
Proof.
  unfold fkOk, hasParent. simpl. rewrite orb_true_iff, existsb_exists. split.
  - intros [Hnull|(p & Hp & Heq)].
    + left. by destruct (get c r).
    + right. exists p. split; [done|]. by apply bool_decide_eq_true in Heq.
  - intros [Hnull|(p & Hp & Heq)].
    + left. by rewrite Hnull.
    + right. exists p. split; [done|]. by apply bool_decide_eq_true.
Qed.

Section KeepParents.
Variable S : list table.
Hypothesis Hsane : schemaSane S = true.

Lemma hasChild_shrinks (d d' : database) (x c : string) (u : value) :
  shrinks S d d' → u ≠ VNull → hasChild d' x c u → hasChild d x c u.
Proof.
  intros Hshr Hu (r' & Hr' & Hc).
  destruct (thins_In S x _ _ r' (Hshr x) Hr') as (r & Hr & Hn).
  exists r. split; [done|]. rewrite <- Hc. symmetry.
  apply (nulled_get_kept S x r r' c Hn). by rewrite Hc.
Qed.

Lemma deleteRows_victims_nulled (n : nat) (t : string) (victim : row → bool)
    (db : database) (r' : row) :
  In r' (rowsOf t (deleteRows (Datatypes.S n) S t victim db)) →
  ∃ r, In r (rowsOf t db) ∧ victim r = false ∧ nulled S t r r'.
Proof.
  rewrite deleteRows_S. intros Hin.
  pose proof (fold_react_shrinks S (deleteRows n S) (List.filter victim (rowsOf t db))
                t (incoming S t) (deleteRows_shrinks S n) (fun fk H => H)
                (<[t := List.filter (fun r => negb (victim r)) (rowsOf t db)]> db) t)
    as Hthin.
  rewrite rowsOf_insert_eq in Hthin.
  destruct (thins_In S t _ _ r' Hthin Hin) as (r & Hr & Hn).
  apply filter_In in Hr as [Hr Hkeep]. exists r.
  split; [done|]. split; [by destruct (victim r)|done].
Qed.

Lemma react_settles (del : string → (row → bool) → database → database)
    (gone : list row) (t : string) (db0 : database)
    (fk : string * string * reference)
    (pending : list (string * string * reference)) (d : database) :
  (∀ x v d, shrinks S d (del x v d)) →
  In fk (incoming S t) →
  (onDelete fk.2 = cascade →
     (∀ v d r', In r' (rowsOf fk.1.1 (del fk.1.1 v d)) →
        ∃ r, In r (rowsOf fk.1.1 d) ∧ v r = false ∧ nulled S fk.1.1 r r')
     ∧ (∀ v d x c ref u,
          In (x, c, ref) (allForeignKeys S) → u ≠ VNull →
          hasParent d ref u → hasChild (del fk.1.1 v d) x c u →
          hasParent (del fk.1.1 v d) ref u)) →
  settling S db0 gone (fk :: pending) d →
  settling S db0 gone pending (react del gone d fk).
Proof.
  intros Hshr Hin Hcas Hinv x c ref u He Hu Hpar0 Hch'.
  assert (Hshr' : shrinks S d (react del gone d fk))
    by (by eapply react_shrinks).
  pose proof (hasChild_shrinks _ _ x c u Hshr' Hu Hch') as Hch.
  destruct fk as [[x0 c0] ref0]. simpl in Hcas.
  destruct (Hinv x c ref u He Hu Hpar0 Hch) as [Hpar|[Hpend Hkey]].
  - (* the parent was there before this reference reacted *)
    left. unfold react in *. simpl in *.
    destruct (onDelete ref0) eqn:Hact.
    + destruct (Hcas eq_refl) as [_ Hgood]. by eapply Hgood.
    + destruct Hpar as (p & Hp & Hpkey).
      destruct (decide (x0 = refTable ref)) as [Hsame|Hne].
      * subst x0.
        exists (nullify c0 (map (get (refColumn ref0)) gone) p). split.
        -- rewrite rowsOf_insert_eq. by apply in_map.
        -- rewrite nullify_other; [done|]. intros Hcol.
           pose proof (blanked_setNull S t _ c0 ref0 Hin Hact) as Hb.
           destruct (sane_edge S Hsane (x, c, ref) He) as (Hnb & _ & _).
           simpl in Hnb. rewrite <- Hcol in Hnb. congruence.
      * exists p. split; [|done]. by rewrite rowsOf_insert_ne.
  - (* the value is a deleted key of a reference still to react *)
    destruct Hpend as [[= -> -> ->]|Hpend]; [|by right].
    exfalso. destruct Hch' as (r' & Hr' & Hc'). unfold react in Hr'. simpl in Hr'.
    assert (Hrefers : refersTo (map (get (refColumn ref)) gone) u = true)
      by (by apply refersTo_spec).
    destruct (onDelete ref) eqn:Hact.
    + destruct (Hcas eq_refl) as [Hvic _].
      destruct (Hvic _ _ _ Hr') as (r & _ & Hkeep & Hn). simpl in Hkeep.
      rewrite <- (nulled_get_kept S x r r' c Hn) in Hkeep by (by rewrite Hc').
      rewrite Hc' in Hkeep. congruence.
    + rewrite rowsOf_insert_eq in Hr'. apply in_map_iff in Hr' as (r & <- & Hr).
      unfold nullify in Hc'.
      destruct (refersTo (map (get (refColumn ref)) gone) (get c r)) eqn:Hr0.
      * rewrite get_insert_eq in Hc'. congruence.
      * rewrite Hc' in Hr0. congruence.
Qed.

Lemma fold_settles (del : string → (row → bool) → database → database)
    (gone : list row) (t : string) (db0 : database)
    (fks : list (string * string * reference)) :
  (∀ x v d, shrinks S d (del x v d)) →
  (∀ fk, In fk fks → In fk (incoming S t)) →
  (∀ fk, In fk fks → onDelete fk.2 = cascade →
     (∀ v d r', In r' (rowsOf fk.1.1 (del fk.1.1 v d)) →
        ∃ r, In r (rowsOf fk.1.1 d) ∧ v r = false ∧ nulled S fk.1.1 r r')
     ∧ (∀ v d x c ref u,
          In (x, c, ref) (allForeignKeys S) → u ≠ VNull →
          hasParent d ref u → hasChild (del fk.1.1 v d) x c u →
          hasParent (del fk.1.1 v d) ref u)) →
  ∀ d, settling S db0 gone fks d →
       settling S db0 gone [] (fold_left (react del gone) fks d).
Proof.
  intros Hshr. induction fks as [|fk fks IH]; intros Hsub Hcas d Hinv; [done|].
  simpl. apply IH.
  - intros fk' H. apply Hsub. by right.
  - intros fk' H. apply Hcas. by right.
  - apply (react_settles del gone t db0 fk fks d Hshr).
    + apply Hsub. by left.
    + apply Hcas. by left.
    + done.
Qed.

(** A value that had a parent before a delete and still has a child after
    it still has a parent. *)
Lemma deleteRows_keeps_parents (n : nat) :
  ∀ t, cascadeDepthOk n S t = true →
  ∀ victim db x c ref u,
    In (x, c, ref) (allForeignKeys S) → u ≠ VNull →
    hasParent db ref u →
    hasChild (deleteRows n S t victim db) x c u →
    hasParent (deleteRows n S t victim db) ref u.
Proof.
  induction n as [|n IH]; intros t Hdepth victim db x c ref u He Hu Hpar Hch;
    [done|].
  rewrite deleteRows_S in *.
  simpl in Hdepth. rewrite forallb_forall in Hdepth.
  assert (Hfinal : settling S db (List.filter victim (rowsOf t db)) []
            (fold_left (react (deleteRows n S) (List.filter victim (rowsOf t db)))
               (incoming S t)
               (<[t := List.filter (fun r => negb (victim r)) (rowsOf t db)]> db))).
  { apply (fold_settles (deleteRows n S) _ t db (incoming S t)).
    - apply deleteRows_shrinks.
    - auto.
    - intros fk Hfk Hact. specialize (Hdepth fk Hfk). rewrite Hact in Hdepth.
      simpl in Hdepth. destruct n as [|n']; [done|]. split.
      + intros v d r' Hr'. by apply deleteRows_victims_nulled in Hr'.
      + intros v d. by apply IH.
    - intros x1 c1 ref1 u1 He1 Hu1 (p & Hp & Hpkey) Hch1.
      destruct (decide (refTable ref1 = t)) as [Ht|Hne].
      + destruct (victim p) eqn:Hvp.
        * right. split.
          -- rewrite <- Ht. by apply incoming_allForeignKeys.
          -- apply in_map_iff. exists p. split; [done|].
             apply filter_In. by rewrite <- Ht.
        * left. exists p. split; [|done]. rewrite Ht, rowsOf_insert_eq.
          apply filter_In. rewrite <- Ht. by rewrite Hvp.
      + left. exists p. split; [|done]. by rewrite rowsOf_insert_ne. }
  destruct (Hfinal x c ref u He Hu Hpar Hch) as [H|[[] _]]. done.
Qed.

(** Deleting keeps every foreign key satisfied. *)
Lemma deleteRows_fk_ok (n : nat) (t : string) (victim : row → bool)
    (db : database) :
  cascadeDepthOk n S t = true →
  fk_ok S db = true → fk_ok S (deleteRows n S t victim db) = true.
Proof.
  intros Hdepth Hfk. unfold fk_ok. apply forallb_forall. intros T HT.
  unfold foreignKeysOk. apply forallb_forall. intros r' Hr'.
  apply forallb_forall. intros [c ref] Hc. apply fkOk_spec.
  destruct (decide (get c r' = VNull)) as [Hnull|Hnn]; [by left|right].
  apply (deleteRows_keeps_parents n t Hdepth victim db (tblName T) c ref).
  - apply allForeignKeys_spec. eauto.
  - done.
  - destruct (thins_In S _ _ _ r' (deleteRows_shrinks S n t victim db (tblName T)) Hr')
      as (r & Hr & Hn).
    rewrite (nulled_get_kept S _ r r' c Hn Hnn).
    destruct (fk_ok_spec S db T r c ref Hfk HT Hr Hc) as (p & Hp & Hkey).
    + by rewrite <- (nulled_get_kept S _ r r' c Hn Hnn).
    + by exists p.
  - by exists r'.
Qed.

(** Deleting keeps every constraint of the schema satisfied. *)
Lemma deleteRows_db_ok (n : nat) (t : string) (victim : row → bool)
    (db : database) :
  cascadeDepthOk n S t = true →
  db_ok S db = true → db_ok S (deleteRows n S t victim db) = true.
Proof.
  intros Hdepth Hok.
  pose proof (deleteRows_fk_ok n t victim db Hdepth (db_ok_fk_ok S db Hok)) as Hfk.
  unfold db_ok. apply forallb_forall. intros T HT.
  pose proof (db_ok_table S db Hok T HT) as HTok.
  unfold tableOk in *. rewrite !andb_true_iff in HTok.
  destruct HTok as [[[Hshape Hnn] Hkeys] _].
  rewrite forallb_forall in Hshape, Hnn, Hkeys.
  pose proof (deleteRows_shrinks S n t victim db (tblName T)) as Hthin.
  rewrite !andb_true_iff. repeat split.
  - apply forallb_forall. intros r' Hr'.
    destruct (thins_In S _ _ _ r' Hthin Hr') as (r & Hr & Hn).
    apply (nulled_shapeOk S Hsane T r r' HT Hn). auto.
  - apply forallb_forall. intros r' Hr'.
    destruct (thins_In S _ _ _ r' Hthin Hr') as (r & Hr & Hn).
    apply (nulled_notNullOk S Hsane T r r' HT Hn). auto.
  - apply forallb_forall. intros cs Hcs.
    apply (thins_distinctOn S (tblName T) cs _ _ Hthin). auto.
  - unfold fk_ok in Hfk. rewrite forallb_forall in Hfk. auto.
Qed.
End KeepParents.

(** X1. Deleting rows from any table of the schema, with the declared
    cascade and set-null actions, turns a state that satisfies every
    constraint into a state that satisfies every constraint. *)
Theorem delete_keeps_db_ok (T : table) (victim : row → bool) (db : database) :
  db_ok schema db = true →
  db_ok schema (deleteWhere schema T victim db) = true.
Proof.
  intros Hok. rewrite <- (deleteRows_fuel 3 T victim db) by lia.
  apply (deleteRows_db_ok schema schema_sane 3 (tblName T) victim db);
    [apply schema_cascadeDepth|done].
Qed.

Lemma delete_keeps_db_ok_witness :
  db_ok schema library = true
  ∧ db_ok schema (deleteWhere schema users (whereEq "id" (VText "u1")) library)
    = true.
Proof.
  assert (H : db_ok schema library = true) by (vm_compute; reflexivity).
  exact (conj H (delete_keeps_db_ok users (whereEq "id" (VText "u1")) library H)).
Defined.

(** ** Inserting keeps the database valid *)

Lemma insert_inr_checks (k : clock) (T : table) (values : row)
    (db db' : database) :
  insert k T values db = inr db' →
  db' = <[tblName T := rowsOf (tblName T) db ++ [fillRow k T values]]> db
  ∧ notNullOk T (fillRow k T values) = true
  ∧ (∀ cs r0, In cs (uniqueKeys T) → In r0 (rowsOf (tblName T) db) →
       agree cs r0 (fillRow k T values) = false)
  ∧ forallb (fkOk db' (fillRow k T values)) (foreignKeys T) = true.
Proof.
  unfold insert. destruct (notNullOk T (fillRow k T values)); simpl; [|done].
  destruct (existsb _ (uniqueKeys T)) eqn:Huniq; [done|].
  destruct (forallb _ (foreignKeys T)) eqn:Hfk; simpl; [|done].
  intros [= <-]. repeat split; try done.
  intros cs r0 Hcs Hr0.
  destruct (agree cs r0 (fillRow k T values)) eqn:Hag; [|done].
  rewrite <- Huniq. symmetry. apply existsb_exists. exists cs. split; [done|].
  apply existsb_exists. eauto.
Qed.

Lemma fillRow_shapeOk (k : clock) (T : table) (values : row) :
  shapeOk T (fillRow k T values) = true.
Proof.
  apply shapeOk_spec. intros c [v Hv]. unfold fillRow in Hv.
  apply elem_of_list_to_map_2, list_elem_of_In, in_map_iff in Hv
    as ([c' col] & [= <- _] & Hin).
  unfold columnKeys. apply in_map_iff. exists (c', col). done.
Qed.

Lemma distinctOn_snoc (cs : list string) (rs : list row) (r : row) :
  distinctOn cs rs = true →
  (∀ r0, In r0 rs → agree cs r0 r = false) →
  distinctOn cs (rs ++ [r]) = true.
Proof.
  intros Hd Hnew. induction rs as [|r1 rs IH]; simpl; [done|].
  simpl in Hd. apply andb_true_iff in Hd as [Hhead Htail].
  apply andb_true_iff. split.
  - rewrite existsb_app. simpl. apply negb_true_iff in Hhead.
    rewrite Hhead, (Hnew r1) by (by left). done.
  - apply IH; [done|]. intros r0 Hr0. apply Hnew. by right.
Qed.

Lemma hasParent_insert (db : database) (t : string) (r : row)
    (ref : reference) (v : value) :
  hasParent db ref v →
  hasParent (<[t := rowsOf t db ++ [r]]> db) ref v.
Proof.
  intros (p & Hp & Hkey). exists p. split; [|done].
  destruct (decide (t = refTable ref)) as [->|Hne].
  - rewrite rowsOf_insert_eq. apply in_or_app. by left.
  - by rewrite rowsOf_insert_ne.
Qed.

Lemma insert_db_ok (S : list table) (k : clock) (T : table) (values : row)
    (db db' : database) :
  schemaSane S = true → In T S →
  db_ok S db = true → insert k T values db = inr db' → db_ok S db' = true.
Proof.
  intros Hsane HT Hok Hins.
  apply insert_inr_checks in Hins as (-> & Hnn & Huniq & Hfk).
  unfold db_ok. apply forallb_forall. intros T' HT'.
  pose proof (db_ok_table S db Hok T' HT') as HTok.
  unfold tableOk in *. rewrite !andb_true_iff in HTok.
  destruct HTok as [[[Hshape' Hnn'] Hkeys'] Hfk'].
  assert (Hfks : foreignKeysOk
                   (<[tblName T := rowsOf (tblName T) db ++ [fillRow k T values]]> db)
                   T' = true).
  { unfold foreignKeysOk in *. rewrite forallb_forall in Hfk'.
    apply forallb_forall. intros r0 Hr0.
    assert (In r0 (rowsOf (tblName T') db)
            ∨ (r0 = fillRow k T values ∧ T' = T)) as [Hold|[-> ->]].
    { destruct (decide (tblName T = tblName T')) as [Hname|Hne].
      - rewrite Hname, rowsOf_insert_eq in Hr0.
        apply in_app_or in Hr0 as [Hr0|[<-|[]]]; [by left|right].
        split; [done|]. symmetry. by apply (sane_same_table S Hsane).
      - rewrite rowsOf_insert_ne in Hr0 by done. by left. }
    - specialize (Hfk' r0 Hold). rewrite forallb_forall in Hfk'.
      apply forallb_forall. intros [c ref] Hc.
      specialize (Hfk' (c, ref) Hc). apply fkOk_spec in Hfk'.
      apply fkOk_spec. destruct Hfk' as [Hnull|Hpar]; [by left|right].
      by apply hasParent_insert.
    - exact Hfk. }
  destruct (decide (tblName T = tblName T')) as [Hname|Hne].
  - assert (T' = T) as -> by (symmetry; by apply (sane_same_table S Hsane)).
    rewrite rowsOf_insert_eq. rewrite !andb_true_iff. repeat split.
    + rewrite forallb_app, Hshape'. simpl. by rewrite fillRow_shapeOk.
    + rewrite forallb_app, Hnn'. simpl. by rewrite Hnn.
    + rewrite forallb_forall in Hkeys'. apply forallb_forall. intros cs Hcs.
      apply distinctOn_snoc; [auto|]. intros r0 Hr0. by apply Huniq.
    + done.
  - rewrite rowsOf_insert_ne by done. rewrite !andb_true_iff. done.
Qed.

(** X2. An insert into a table of the schema either is refused or turns a
    state that satisfies every constraint into one that does. *)
Theorem insert_keeps_db_ok (k : clock) (T : table) (values : row)
    (db db' : database) :
  In T schema → db_ok schema db = true →
  insert k T values db = inr db' → db_ok schema db' = true.
Proof.
  intros HT Hok Hins.
  exact (insert_db_ok schema k T values db db' schema_sane HT Hok Hins).
Qed.

Lemma insert_keeps_db_ok_witness :
  ∃ db',
    insert (Clock "b9" 1700001000) bookmarks
           (mkRow [("userId", VText "u1"); ("type", VText "link")]) library
      = inr db'
    ∧ db_ok schema db' = true.
Proof.
  eexists. split.
  - apply insert_accepts; vm_compute; reflexivity.
  - apply (insert_keeps_db_ok (Clock "b9" 1700001000) bookmarks
             (mkRow [("userId", VText "u1"); ("type", VText "link")]) library).
    + in_list.
    + vm_compute. reflexivity.
    + apply insert_accepts; vm_compute; reflexivity.
Defined.

(** ** What an insert stores and what it refuses *)




Lemma forallb_false {A : Type} (f : A → bool) (l : list A) (x : A) :
  In x l → f x = false → forallb f l = false.
Proof.
  intros Hin Hx. destruct (forallb f l) eqn:Hall; [|done].
  rewrite forallb_forall in Hall. rewrite (Hall x Hin) in Hx. done.
Qed.

(** X4. A column declared [notNull] without a default and without a
    default function is required: an insert that omits it, or that
    supplies NULL for any [notNull] column, is refused with a NOT NULL
    violation.  (Asset ids, generated by the caller, are such a column.) *)
Theorem insert_requires (k : clock) (T : table) (values : row)
    (db : database) (c : string) (col : column) :
  In T schema → In (c, col) (tblColumns T) → colNotNull col = true →
  values !! c = Some VNull
  ∨ (values !! c = None ∧ colDefault col = None ∧ colDefaultFn col = None) →
  insert k T values db = inl NotNullViolation.
Proof.
  intros HT Hcol Hnn Hmissing. unfold insert.
  assert (notNullOk T (fillRow k T values) = false) as ->; [|reflexivity].
  apply (forallb_false _ _ (c, col) Hcol). simpl. rewrite Hnn. simpl.
  rewrite (fillRow_lookup k T values c col (columns_NoDup T HT) Hcol).
  unfold fillColumn. simpl.
  destruct Hmissing as [->|(-> & -> & ->)]; reflexivity.
Qed.

Lemma insert_requires_witness :
  insert (Clock "unused" 1700001000) assets
         (mkRow [("assetType", VText "unknown"); ("userId", VText "u1")])
         library
  = inl NotNullViolation.
Proof.
  apply (insert_requires _ assets _ library "id" (text "id" |> notNull |> primaryKey)).
  - in_list.
  - in_list.
  - reflexivity.
  - right. repeat split; vm_compute; reflexivity.
Defined.

(** X5. An insert whose reference names no row of the referenced (other)
    table is refused. *)
Theorem insert_dangling_refused (k : clock) (T : table) (values : row)
    (db : database) (c : string) (ref : reference) (v : value) :
  In T schema → In (c, ref) (foreignKeys T) →
  refTable ref ≠ tblName T →
  values !! c = Some v → v ≠ VNull →
  existsb (whereEq (refColumn ref) v) (rowsOf (refTable ref) db) = false →
  ∃ e, insert k T values db = inl e.
Proof.
  intros HT Hfk Hother Hv Hnn Hnone.
  destruct (insert k T values db) as [e|db'] eqn:Hins; [eauto|exfalso].
  apply insert_inr_checks in Hins as (-> & _ & _ & Hfks).
  rewrite forallb_forall in Hfks. specialize (Hfks (c, ref) Hfk).
  destruct (foreignKeys_column T c ref Hfk) as (col & Hcol & _).
  assert (get c (fillRow k T values) = v) as Hget.
  { rewrite (fillRow_lookup k T values c col (columns_NoDup T HT) Hcol).
    by apply fillColumn_given. }
  apply fkOk_spec in Hfks. rewrite Hget in Hfks.
  destruct Hfks as [Hnull|(p & Hp & Hkey)]; [done|].
  rewrite rowsOf_insert_ne in Hp by done.
  assert (existsb (whereEq (refColumn ref) v) (rowsOf (refTable ref) db) = true)
    as Hex; [|congruence].
  apply existsb_exists. exists p. split; [done|]. by apply bool_decide_eq_true.
Qed.

Lemma insert_dangling_refused_witness :
  ∃ e, insert (Clock "b9" 1700001000) bookmarks
              (mkRow [("userId", VText "nobody"); ("type", VText "link")])
              library
       = inl e.
Proof.
  apply (insert_dangling_refused _ bookmarks _ library "userId"
           (Reference "user" "id" cascade) (VText "nobody")).
  - in_list.
  - in_list.
  - discriminate.
  - vm_compute. reflexivity.
  - discriminate.
  - vm_compute. reflexivity.
Defined.

(** ** Every declared key *)

Lemma schema_keys_notNull (T : table) (cs : list string) :
  In T schema → In cs (uniqueKeys T) → notNullKey T cs = true.
Proof.
  intros HT Hcs.
  assert (forallb (notNullKey T) (uniqueKeys T) = true) as Hall.
  { revert T HT Hcs. intros T HT _. revert T HT.
    apply forallb_forall. vm_compute. reflexivity. }
  rewrite forallb_forall in Hall. auto.
Qed.

(** X6. Every primary key and unique constraint of the schema is over
    NOT NULL columns, so in a valid state rows that agree on such a key are
    one row, and an insert that repeats the key of a stored row is
    refused. *)
Theorem every_key_identifies (db : database) (T : table) (cs : list string) :
  db_ok schema db = true → In T schema → In cs (uniqueKeys T) →
  (∀ i j r1 r2,
     rowsOf (tblName T) db !! i = Some r1 →
     rowsOf (tblName T) db !! j = Some r2 →
     (∀ c, In c cs → get c r1 = get c r2) → i = j)
  ∧ (∀ k values r,
       In r (rowsOf (tblName T) db) →
       (∀ c, In c cs → values !! c = Some (get c r)) →
       ∃ e, insert k T values db = inl e).
Proof.
  intros Hok HT Hcs.
  pose proof (notNullKey_spec T cs (schema_keys_notNull T cs HT Hcs)) as Hnn.
  split.
  - intros i j r1 r2. by apply (key_identifies schema db T cs).
  - intros k values r Hr Hval.
    by apply (key_insert_refused schema db T cs Hok HT Hcs Hnn k values r
                (columns_NoDup T HT)).
Qed.

Lemma every_key_identifies_witness :
  db_ok schema library = true ∧ In users schema ∧ In ["email"] (uniqueKeys users)
  ∧ (∀ i j r1 r2,
       rowsOf "user" library !! i = Some r1 →
       rowsOf "user" library !! j = Some r2 →
       (∀ c, In c ["email"] → get c r1 = get c r2) → i = j)
  ∧ (∀ k values r,
       In r (rowsOf "user" library) →
       (∀ c, In c ["email"] → values !! c = Some (get c r)) →
       ∃ e, insert k users values library = inl e).
Proof.
  assert (H1 : db_ok schema library = true) by (vm_compute; reflexivity).
  assert (H2 : In users schema) by in_list.
  assert (H3 : In ["email"] (uniqueKeys users)) by in_list.
  exact (conj H1 (conj H2 (conj H3 (every_key_identifies library users ["email"] H1 H2 H3)))).
Defined.

(** ** The tables a delete leaves alone *)

Lemma react_frame (del : string → (row → bool) → database → database)
    (affectedOf : string → list string) (gone : list row) (d : database)
    (fk : string * string * reference) (x : string) :
  (onDelete fk.2 = cascade →
     ∀ victim d', ¬ In x (affectedOf fk.1.1) →
       rowsOf x (del fk.1.1 victim d') = rowsOf x d') →
  ¬ In x (touchedBy affectedOf fk) →
  rowsOf x (react del gone d fk) = rowsOf x d.
Proof.
  destruct fk as [[y c] ref]. unfold react, touchedBy. simpl.
  intros Hdel Hx. destruct (onDelete ref); [by apply Hdel|].
  apply rowsOf_insert_ne. intros ->. apply Hx. by left.
Qed.

Lemma fold_react_frame (del : string → (row → bool) → database → database)
    (affectedOf : string → list string) (gone : list row)
    (fks : list (string * string * reference)) (x : string) :
  (∀ fk, In fk fks → onDelete fk.2 = cascade →
     ∀ victim d', ¬ In x (affectedOf fk.1.1) →
       rowsOf x (del fk.1.1 victim d') = rowsOf x d') →
  ¬ In x (flat_map (touchedBy affectedOf) fks) →
  ∀ d, rowsOf x (fold_left (react del gone) fks d) = rowsOf x d.
Proof.
  induction fks as [|fk fks IH]; intros Hdel Hx d; simpl; [done|].
  simpl in Hx. rewrite IH.
  - apply (react_frame del affectedOf); [apply Hdel; by left|].
    intros H. apply Hx, in_or_app. by left.
  - intros fk' Hfk'. apply Hdel. by right.
  - intros H. apply Hx, in_or_app. by right.
Qed.

(** A table that is not [affected] keeps its rows. *)
Lemma deleteRows_frame (S : list table) (n : nat) :
  ∀ t victim db x,
    ¬ In x (affected n S t) →
    rowsOf x (deleteRows n S t victim db) = rowsOf x db.
Proof.
  induction n as [|n IH]; intros t victim db x Hx; [done|].
  rewrite deleteRows_S. simpl in Hx.
  rewrite (fold_react_frame (deleteRows n S) (affected n S)).
  - apply rowsOf_insert_ne. intros ->. apply Hx. by left.
  - intros fk _ _ victim' d' Hx'. by apply IH.
  - intros H. apply Hx. by right.
Qed.

(** The table deleted from loses exactly the victims, unless one of its
    own reactions reaches it. *)
Lemma deleteRows_self (S : list table) (n : nat) (t : string)
    (victim : row → bool) (db : database) :
  ¬ In t (reached n S t) →
  rowsOf t (deleteRows (Datatypes.S n) S t victim db)
  = List.filter (fun r => negb (victim r)) (rowsOf t db).
Proof.
  intros Ht. rewrite deleteRows_S.
  rewrite (fold_react_frame (deleteRows n S) (affected n S)).
  - apply rowsOf_insert_eq.
  - intros fk _ _ victim' d' Hx'. by apply deleteRows_frame.
  - exact Ht.
Qed.

Lemma not_In_decide (x : string) (l : list string) :
  bool_decide (x ∈ l) = false → ¬ In x l.
Proof. intros H Hin. apply bool_decide_eq_false in H. by apply H, list_elem_of_In. Qed.

(** X7. What a delete can touch.  Deleting bookmarks changes only
    bookmarks, their three extension tables, assets, the two join tables
    and rssFeedImports; deleting tags only bookmarkTags and
    tagsOnBookmarks; deleting lists only bookmarkLists and
    bookmarksInLists; deleting feeds only rssFeeds and rssFeedImports;
    deleting users never changes verificationToken or config. *)
Theorem delete_touches_only (victim : row → bool) (db : database) (x : string) :
  (¬ In x ["bookmarks"; "bookmarkLinks"; "assets"; "bookmarkTexts";
           "bookmarkAssets"; "tagsOnBookmarks"; "bookmarksInLists";
           "rssFeedImports"] →
   rowsOf x (deleteWhere schema bookmarks victim db) = rowsOf x db)
  ∧ (¬ In x ["bookmarkTags"; "tagsOnBookmarks"] →
     rowsOf x (deleteWhere schema bookmarkTags victim db) = rowsOf x db)
  ∧ (¬ In x ["bookmarkLists"; "bookmarksInLists"] →
     rowsOf x (deleteWhere schema bookmarkLists victim db) = rowsOf x db)
  ∧ (¬ In x ["rssFeeds"; "rssFeedImports"] →
     rowsOf x (deleteWhere schema rssFeedsTable victim db) = rowsOf x db)
  ∧ (In x ["verificationToken"; "config"] →
     rowsOf x (deleteWhere schema users victim db) = rowsOf x db).
Proof.
  assert (Hb : affected 18 schema "bookmarks"
               = ["bookmarks"; "bookmarkLinks"; "assets"; "bookmarkTexts";
                  "bookmarkAssets"; "tagsOnBookmarks"; "bookmarksInLists";
                  "rssFeedImports"]) by (vm_compute; reflexivity).
  assert (Ht : affected 18 schema "bookmarkTags"
               = ["bookmarkTags"; "tagsOnBookmarks"]) by (vm_compute; reflexivity).
  assert (Hl : affected 18 schema "bookmarkLists"
               = ["bookmarkLists"; "bookmarkLists"; "bookmarksInLists"])
    by (vm_compute; reflexivity).
  assert (Hf : affected 18 schema "rssFeeds" = ["rssFeeds"; "rssFeedImports"])
    by (vm_compute; reflexivity).
  repeat split; intros Hx; rewrite deleteWhere_18; apply deleteRows_frame.
  - change (tblName bookmarks) with "bookmarks". by rewrite Hb.
  - change (tblName bookmarkTags) with "bookmarkTags". by rewrite Ht.
  - change (tblName bookmarkLists) with "bookmarkLists". rewrite Hl.
    intros [<-|H]; [apply Hx; by left|by apply Hx].
  - change (tblName rssFeedsTable) with "rssFeeds". by rewrite Hf.
  - apply not_In_decide.
    destruct Hx as [<-|[<-|[]]]; vm_compute; reflexivity.
Qed.

Lemma delete_touches_only_witness :
  rowsOf "bookmarks"
    (deleteWhere schema bookmarkTags (whereEq "id" (VText "t1")) library)
  = rowsOf "bookmarks" library.
Proof.
  apply (proj1 (proj2 (delete_touches_only (whereEq "id" (VText "t1")) library
                         "bookmarks"))).
  apply not_In_decide. vm_compute. reflexivity.
Defined.

(** X8. Deleting from any table of the schema other than bookmarkLists
    removes from that table exactly the rows matching the filter and
    leaves its other rows as they were. *)
Theorem delete_removes_exactly (T : table) (victim : row → bool)
    (db : database) :
  In T schema → tblName T ≠ "bookmarkLists" →
  rowsOf (tblName T) (deleteWhere schema T victim db)
  = List.filter (fun r => negb (victim r)) (rowsOf (tblName T) db).
Proof.
  intros HT Hlists. rewrite deleteWhere_18. apply deleteRows_self.
  apply not_In_decide.
  assert (bool_decide (tblName T = "bookmarkLists")
          || negb (bool_decide (tblName T ∈ reached 17 schema (tblName T))) = true)
    as Hcheck.
  { revert T HT Hlists. intros T HT _. revert T HT.
    apply forallb_forall. vm_compute. reflexivity. }
  apply orb_true_iff in Hcheck as [Hl|Hr].
  - by apply bool_decide_eq_true in Hl.
  - by apply negb_true_iff in Hr.
Qed.

Lemma delete_removes_exactly_witness :
  rowsOf "bookmarks" (deleteWhere schema bookmarks (whereEq "id" (VText "b1")) library)
  = List.filter (fun r => negb (whereEq "id" (VText "b1") r))
                (rowsOf "bookmarks" library).
Proof.
  apply (delete_removes_exactly bookmarks (whereEq "id" (VText "b1")) library).
  - in_list.
  - discriminate.
Defined.

(** ** Feed imports of a deleted bookmark *)

Lemma fold_left_snoc {A B : Type} (f : A → B → A) (l : list B) (b : B) (a : A) :
  fold_left f (l ++ [b]) a = f (fold_left f l a) b.
Proof. rewrite fold_left_app. reflexivity. Qed.

Lemma incoming_bookmarks :
  incoming schema "bookmarks" =
  [ ("bookmarkLinks", "id", Reference "bookmarks" "id" cascade);
    ("assets", "bookmarkId", Reference "bookmarks" "id" cascade);
    ("bookmarkTexts", "id", Reference "bookmarks" "id" cascade);
    ("bookmarkAssets", "id", Reference "bookmarks" "id" cascade);
    ("tagsOnBookmarks", "bookmarkId", Reference "bookmarks" "id" cascade);
    ("bookmarksInLists", "bookmarkId", Reference "bookmarks" "id" cascade) ]
  ++ [ ("rssFeedImports", "bookmarkId", Reference "bookmarks" "id" setNull) ].
Proof. vm_compute. reflexivity. Qed.

(** X9. Deleting bookmarks deletes no RSS import row: every import row
    stays, in order, with its [bookmarkId] set to NULL when it named a
    deleted bookmark and unchanged otherwise. *)
Theorem bookmark_delete_keeps_imports (victim : row → bool) (db : database) :
  rowsOf "rssFeedImports" (deleteWhere schema bookmarks victim db)
  = map (nullify "bookmarkId"
           (map (get "id") (List.filter victim (rowsOf "bookmarks" db))))
        (rowsOf "rssFeedImports" db).
Proof.
  rewrite deleteWhere_18. change (tblName bookmarks) with "bookmarks".
  rewrite (deleteRows_S 17), incoming_bookmarks, fold_left_snoc.
  unfold react at 1. cbn [fst snd onDelete refColumn].
  rewrite rowsOf_insert_eq.
  rewrite (fold_react_frame (deleteRows 17 schema) (affected 17 schema)).
  - rewrite rowsOf_insert_ne by discriminate. reflexivity.
  - intros fk _ _ victim' d' Hx. by apply deleteRows_frame.
  - apply not_In_decide. vm_compute. reflexivity.
Qed.

(** ** Every cascading reference *)

(** X10. For every reference of the schema declared with
    [onDelete: "cascade"]: deleting the parent row with key [b] leaves no
    row of the referring table that still holds [b] in the referring
    column. *)
Theorem every_cascade_clears (T : table) (x c : string) (ref : reference)
    (b : string) (db : database) :
  In (x, c, ref) (allForeignKeys schema) → onDelete ref = cascade →
  tblName T = refTable ref →
  existsb (whereEq (refColumn ref) (VText b)) (rowsOf (refTable ref) db) = true →
  Forall (fun r => get c r ≠ VText b)
         (rowsOf x (deleteWhere schema T (whereEq (refColumn ref) (VText b)) db)).
Proof.
  intros He Hact Hname Hex. apply List.Forall_forall. intros r Hr.
  apply existsb_exists in Hex as (p & Hp & Hkey).
  apply bool_decide_eq_true in Hkey.
  rewrite deleteWhere_18, Hname in Hr.
  destruct (sane_edge schema schema_sane (x, c, ref) He) as (_ & Hnb & _).
  exact (cascade_clears schema 16 (refTable ref) x c ref (VText b) db p r
           (incoming_allForeignKeys schema x c ref He) Hact (Hnb Hact)
           ltac:(discriminate) Hp Hkey Hr).
Qed.

Lemma every_cascade_clears_witness :
  Forall (fun r => get "tagId" r ≠ VText "t1")
         (rowsOf "tagsOnBookmarks"
            (deleteWhere schema bookmarkTags (whereEq "id" (VText "t1")) library)).
Proof.
  apply (every_cascade_clears bookmarkTags "tagsOnBookmarks" "tagId"
           (Reference "bookmarkTags" "id" cascade) "t1" library).
  - in_list.
  - reflexivity.
  - reflexivity.
  - vm_compute. reflexivity.
Defined.

(** ** Cascades of cascades *)

Lemma schema_referencesKeys : referencesKeys schema = true.
Proof. vm_compute. reflexivity. Qed.

Lemma reference_key (x c : string) (ref : reference) :
  In (x, c, ref) (allForeignKeys schema) →
  ∃ T, In T schema ∧ tblName T = refTable ref
       ∧ In [refColumn ref] (uniqueKeys T)
       ∧ notNullKey T [refColumn ref] = true.
Proof.
  intros He. pose proof schema_referencesKeys as H. unfold referencesKeys in H.
  rewrite forallb_forall in H. specialize (H _ He). cbn beta in H.
  apply existsb_exists in H as (T & HT & H). rewrite !andb_true_iff in H.
  destruct H as [[Hname Hkey] Hnn]. exists T.
  apply bool_decide_eq_true in Hname, Hkey. apply list_elem_of_In in Hkey.
  repeat split; assumption.
Qed.

(** X11. Cascades compose.  In a valid state let [M] be a row whose
    cascading reference [c1] names the parent [u], and let [c2] be a
    cascading reference of another table into [M]'s table.  After deleting
    the parent [u], no row holds [M]'s key in [c2]: the rows that depended
    on [M] are gone with it. *)
Theorem delete_cascades_twice (db : database) (T : table)
    (m c1 : string) (ref1 : reference) (l c2 : string) (ref2 : reference)
    (u : string) (M : row) :
  db_ok schema db = true →
  In (m, c1, ref1) (allForeignKeys schema) → onDelete ref1 = cascade →
  In (l, c2, ref2) (allForeignKeys schema) → onDelete ref2 = cascade →
  refTable ref2 = m → tblName T = refTable ref1 →
  In M (rowsOf m db) → get c1 M = VText u →
  Forall (fun r => get c2 r ≠ get (refColumn ref2) M)
         (rowsOf l (deleteWhere schema T (whereEq (refColumn ref1) (VText u)) db)).
Proof.
  intros Hok He1 Hact1 He2 Hact2 Hm Hname HM Hu.
  apply List.Forall_forall. intros r Hr Hr2.
  destruct (reference_key l c2 ref2 He2) as (Tm & HTm & HTmname & Hkey & Hnn).
  rewrite Hm in HTmname.
  pose proof (notNullKey_spec Tm _ Hnn) as Hnn'. clear Hnn.
  assert (HMkey : get (refColumn ref2) M ≠ VNull).
  { destruct (Hnn' (refColumn ref2) (or_introl eq_refl)) as (col & Hcol & Hcolnn).
    apply (db_ok_notNull schema db Hok Tm M _ col HTm); [|exact Hcol|exact Hcolnn].
    rewrite HTmname. exact HM. }
  (* the parent [u] exists, since [M] refers to it *)
  pose proof He1 as He1'. apply allForeignKeys_spec in He1'.
  destruct He1' as (T1 & HT1 & HT1name & Hfk1).
  destruct (fk_ok_spec schema db T1 M c1 ref1 (db_ok_fk_ok schema db Hok) HT1)
    as (p & Hp & Hpkey);
    [rewrite HT1name; exact HM|exact Hfk1|rewrite Hu; discriminate|].
  rewrite Hu in Hpkey.
  (* after the delete the state is valid, so [r] has a parent [M'] *)
  rewrite <- (deleteRows_fuel 3 T _ db (le_n 3)), Hname in Hr.
  pose proof (deleteRows_fk_ok schema schema_sane 3 (refTable ref1)
                (whereEq (refColumn ref1) (VText u)) db
                (schema_cascadeDepth _) (db_ok_fk_ok schema db Hok)) as Hfk'.
  pose proof He2 as He2'. apply allForeignKeys_spec in He2'.
  destruct He2' as (T2 & HT2 & HT2name & Hfk2).
  destruct (fk_ok_spec schema _ T2 r c2 ref2 Hfk' HT2)
    as (M' & HM' & HM'key);
    [rewrite HT2name; exact Hr|exact Hfk2|rewrite Hr2; exact HMkey|].
  rewrite Hm in HM'.
  (* [M'] descends from [M] itself, by uniqueness of the key *)
  destruct (thins_In schema m _ _ M'
              (deleteRows_shrinks schema 3 _ _ db m) HM') as (M0 & HM0 & Hn).
  assert (HM0key : get (refColumn ref2) M0 = get (refColumn ref2) M).
  { rewrite <- (nulled_get_kept schema m M0 M' _ Hn).
    - rewrite HM'key. exact Hr2.
    - rewrite HM'key, Hr2. exact HMkey. }
  assert (M0 = M) as ->.
  { apply list_elem_of_In, list_elem_of_lookup in HM0 as [i Hi].
    apply list_elem_of_In, list_elem_of_lookup in HM as [j Hj].
    rewrite <- HTmname in Hi, Hj.
    assert (i = j) as ->; [|congruence].
    apply (key_identifies schema db Tm [refColumn ref2] Hok HTm Hkey Hnn'
             i j M0 M Hi Hj).
    intros c' [<-|[]]. exact HM0key. }
  (* so [M'] still names the deleted parent: impossible *)
  destruct (sane_edge schema schema_sane (m, c1, ref1) He1) as (_ & Hnb & _).
  apply (cascade_clears schema 1 (refTable ref1) m c1 ref1 (VText u) db p M'
           (incoming_allForeignKeys schema m c1 ref1 He1) Hact1 (Hnb Hact1)
           ltac:(discriminate) Hp Hpkey HM').
  rewrite (nulled_get_fixed schema m M M' c1 Hn (Hnb Hact1)). exact Hu.
Qed.

Lemma delete_cascades_twice_witness :
  Forall (fun r => get "id" r ≠ get "id" (bookmarkRow "b1" "u1" "link"))
         (rowsOf "bookmarkLinks"
            (deleteWhere schema users (whereEq "id" (VText "u1")) library)).
Proof.
  apply (delete_cascades_twice library users
           "bookmarks" "userId" (Reference "user" "id" cascade)
           "bookmarkLinks" "id" (Reference "bookmarks" "id" cascade)
           "u1" (bookmarkRow "b1" "u1" "link")).
  - vm_compute. reflexivity.
  - in_list.
  - reflexivity.
  - in_list.
  - reflexivity.
  - reflexivity.
  - reflexivity.
  - apply In_decide. vm_compute. reflexivity.
  - vm_compute. reflexivity.
Defined.

(** ** Termination of cascades *)

(** X12. The cascade edges of the schema form chains of at most three
    tables (user, then bookmarks, tags, lists or feeds, then their
    dependents), and exactly three below user: a delete run with any fuel
    from 3 on gives the result of [deleteWhere], while fuel 2 is not
    enough for users. *)
Theorem cascades_terminate (n : nat) (T : table) (victim : row → bool)
    (db : database) :
  (3 ≤ n)%nat →
  cascadeDepthOk 3 schema (tblName T) = true
  ∧ cascadeDepthOk 2 schema "user" = false
  ∧ deleteRows n schema (tblName T) victim db = deleteWhere schema T victim db.
Proof.
  intros Hn. split; [apply schema_cascadeDepth|].
  split; [vm_compute; reflexivity|]. by apply deleteRows_fuel.
Qed.

Lemma cascades_terminate_witness :
  deleteRows 5 schema "user" (whereEq "id" (VText "u1")) library
  = deleteWhere schema users (whereEq "id" (VText "u1")) library.
Proof.
  apply (cascades_terminate 5 users (whereEq "id" (VText "u1")) library). lia.
Defined.

(** ** Relations and references resolve to one row *)

(** Rows that all carry the same non-NULL values in the columns of a key
    are at most one row. *)
Lemma distinctOn_filter (cs : list string) (rs : list row) (f : row → bool) :
  distinctOn cs rs = true →
  (∀ p1 p2, f p1 = true → f p2 = true → agree cs p1 p2 = true) →
  (length (List.filter f rs) ≤ 1)%nat.
Proof.
  intros Hd Hf. induction rs as [|p rs IH]; simpl; [lia|].
  simpl in Hd. apply andb_true_iff in Hd as [Hhead Htail].
  specialize (IH Htail). destruct (f p) eqn:Hp; [|done].
  assert (List.filter f rs = []) as ->; [|simpl; lia].
  destruct (List.filter f rs) as [|p0 l] eqn:Hfl; [done|].
  assert (In p0 (List.filter f rs)) as Hin by (rewrite Hfl; by left).
  apply filter_In in Hin as [Hin Hp0].
  apply negb_true_iff in Hhead.
  assert (existsb (agree cs p) rs = true) as Hex; [|congruence].
  apply existsb_exists. exists p0. split; [done|]. by apply Hf.
Qed.

Lemma joins_agree (fields refs : list string) (r p1 p2 : row) :
  length refs = length fields →
  joins fields refs r p1 = true → joins fields refs r p2 = true →
  agree refs p1 p2 = true.
Proof.
  unfold joins. rewrite !forallb_forall. intros Hlen H1 H2.
  apply agree_spec. intros c Hc.
  apply list_elem_of_In, list_elem_of_lookup in Hc as [i Hi].
  destruct (lookup_lt_is_Some_2 fields i) as [f Hf].
  { rewrite <- Hlen. by eapply lookup_lt_Some. }
  assert (In (f, c) (combine fields refs)) as Hin.
  { apply list_elem_of_In, list_elem_of_lookup. exists i.
    change (combine fields refs) with (zip fields refs).
    apply lookup_zip_with_Some. exists f, c. done. }
  specialize (H1 _ Hin). specialize (H2 _ Hin). simpl in H1, H2.
  apply andb_true_iff in H1 as [Hnn H1], H2 as [_ H2].
  apply bool_decide_eq_true in H1, H2. rewrite <- H1.
  split; [by destruct (get f r)|congruence].
Qed.

(** X13. Every [one] relation of the schema joins on a key of its target:
    in a valid state it relates a row to at most one row. *)
Theorem one_relation_at_most_one (db : database) (source target : table)
    (name : string) (fields refs : list string) (r : row) :
  db_ok schema db = true →
  In (source, name, target, fields, refs) oneRelations →
  (length (related target fields refs r db) ≤ 1)%nat.
Proof.
  intros Hok Hrel.
  assert (bool_decide (target ∈ schema) && bool_decide (refs ∈ uniqueKeys target)
          && bool_decide (length refs = length fields) = true) as Hcheck.
  { assert (∀ rel, In rel oneRelations →
              bool_decide (rel.1.1.2 ∈ schema)
              && bool_decide (rel.2 ∈ uniqueKeys rel.1.1.2)
              && bool_decide (length rel.2 = length rel.1.2) = true) as Hall
      by (apply forallb_forall; vm_compute; reflexivity).
    exact (Hall _ Hrel). }
  rewrite !andb_true_iff in Hcheck. destruct Hcheck as [[HT Hkey] Hlen].
  apply bool_decide_eq_true in HT, Hkey, Hlen.
  apply list_elem_of_In in HT, Hkey.
  unfold related. apply (distinctOn_filter refs).
  - exact (db_ok_distinct schema db Hok target refs HT Hkey).
  - intros p1 p2. by apply joins_agree.
Qed.

Lemma one_relation_at_most_one_witness :
  (length (related users ["userId"] ["id"] (bookmarkRow "b1" "u1" "link") library)
   ≤ 1)%nat.
Proof.
  apply (one_relation_at_most_one library bookmarks users "user").
  - vm_compute. reflexivity.
  - in_list.
Defined.

(** X14. In a valid state every non-NULL reference names exactly one row
    of the referenced table: it names a key of that table, and the
    foreign key guarantees the row is there. *)
Theorem every_reference_resolves (db : database) (x c : string)
    (ref : reference) (r : row) :
  db_ok schema db = true →
  In (x, c, ref) (allForeignKeys schema) →
  In r (rowsOf x db) → get c r ≠ VNull →
  length (List.filter (whereEq (refColumn ref) (get c r))
                      (rowsOf (refTable ref) db)) = 1%nat.
Proof.
  intros Hok He Hr Hnn.
  destruct (reference_key x c ref He) as (Tp & HTp & HTpname & Hkey & _).
  pose proof He as He'. apply allForeignKeys_spec in He'.
  destruct He' as (T & HT & HTname & Hfk).
  destruct (fk_ok_spec schema db T r c ref (db_ok_fk_ok schema db Hok) HT)
    as (p & Hp & Hpkey); [rewrite HTname; exact Hr|exact Hfk|exact Hnn|].
  assert (length (List.filter (whereEq (refColumn ref) (get c r))
                              (rowsOf (refTable ref) db)) ≤ 1)%nat as Hle.
  { apply distinctOn_count; [|exact Hnn].
    rewrite <- HTpname. exact (db_ok_distinct schema db Hok Tp _ HTp Hkey). }
  assert (In p (List.filter (whereEq (refColumn ref) (get c r))
                            (rowsOf (refTable ref) db))) as Hin.
  { apply filter_In. split; [exact Hp|]. by apply bool_decide_eq_true. }
  destruct (List.filter (whereEq (refColumn ref) (get c r))
                        (rowsOf (refTable ref) db)) as [|p0 [|p1 l]];
    [destruct Hin|reflexivity|simpl in Hle; lia].
Qed.

Lemma every_reference_resolves_witness :
  length (List.filter (whereEq "id" (get "userId" (bookmarkRow "b1" "u1" "link")))
                      (rowsOf "user" library)) = 1%nat.
Proof.
  apply (every_reference_resolves library "bookmarks" "userId"
           (Reference "user" "id" cascade) (bookmarkRow "b1" "u1" "link")).
  - vm_compute. reflexivity.
  - in_list.
  - apply In_decide. vm_compute. reflexivity.
  - vm_compute. discriminate.
Defined.

(** ** The popup *)

(** X15. The popup shows the recorded error only while the mutation
    status is [error]; there, after the mutation failed with [message], it
    shows "Something went wrong: " followed by the message.  In every
    other status what [runSave] recorded is not displayed: in particular
    the missing-URL message stays hidden behind the spinner while the
    mutation is idle. *)
Theorem render_shows_error_only_on_failure (s : SavePageView.status)
    (queryResult : list SavePage.Tab) (message : string) (st : SavePage.state) :
  (s ≠ SavePageView.error →
   SavePageView.render s (SavePage.runSave queryResult st).2
   = SavePageView.render s st)
  ∧ SavePageView.render SavePageView.idle (SavePage.runSave [] st).2
    = SavePageView.div "m-auto" SavePageView.Spinner
  ∧ SavePageView.render SavePageView.error
      (SavePage.onError message (SavePage.runSave queryResult st).2).2
    = SavePageView.div "text-red-500"
        (SavePageView.Text (String.append "Something went wrong: " message)).
Proof.
  split; [|split].
  - intros Hs. destruct s; [done|reflexivity..].
  - reflexivity.
  - reflexivity.
Qed.

Lemma render_shows_error_only_on_failure_witness :
  SavePageView.render SavePageView.idle
    (SavePage.runSave [ {| SavePage.url := None |} ]
       {| SavePage.error := None; SavePage.createBookmarkCalls := [] |}).2
  = SavePageView.render SavePageView.idle
      {| SavePage.error := None; SavePage.createBookmarkCalls := [] |}.
Proof.
  apply (proj1 (render_shows_error_only_on_failure SavePageView.idle
                  [ {| SavePage.url := None |} ] "x"
                  {| SavePage.error := None; SavePage.createBookmarkCalls := [] |})).
  discriminate.
Defined.

Lemma runSave_url (t : SavePage.Tab) (rest : list SavePage.Tab) (u : string)
    (st : SavePage.state) :
  SavePage.url t = Some u → u ≠ EmptyString →
  SavePage.runSave (t :: rest) st
  = (tt, {| SavePage.error := SavePage.error st;
            SavePage.createBookmarkCalls :=
              SavePage.createBookmarkCalls st
              ++ [ {| SavePage.type := "link"; SavePage.bookmarkUrl := u |} ] |}).
Proof.
  intros Hu Hne. unfold SavePage.runSave. simpl. rewrite Hu.
  destruct u as [|a u]; [done|]. reflexivity.
Qed.

(** X16. [runSave] does not remember earlier runs: run [n] times on a tab
    with a URL it issues [n] identical requests, and never touches the
    error. *)
Theorem runSave_repeats (n : nat) (t : SavePage.Tab) (rest : list SavePage.Tab)
    (u : string) (st : SavePage.state) :
  SavePage.url t = Some u → u ≠ EmptyString →
  SavePage.createBookmarkCalls (SavePageView.runSaveTimes n (t :: rest) st).2
  = SavePage.createBookmarkCalls st
    ++ repeat {| SavePage.type := "link"; SavePage.bookmarkUrl := u |} n
  ∧ SavePage.error (SavePageView.runSaveTimes n (t :: rest) st).2
    = SavePage.error st.
Proof.
  intros Hu Hne. revert st. induction n as [|n IH]; intros st.
  - simpl. by rewrite app_nil_r.
  - cbn [SavePageView.runSaveTimes]. unfold SavePage.bind.
    rewrite (runSave_url t rest u st Hu Hne).
    destruct (IH {| SavePage.error := SavePage.error st;
                    SavePage.createBookmarkCalls :=
                      SavePage.createBookmarkCalls st
                      ++ [ {| SavePage.type := "link";
                              SavePage.bookmarkUrl := u |} ] |})
      as [Hcalls Herr].
    rewrite Hcalls, Herr. simpl. by rewrite <- app_assoc.
Qed.

Lemma runSave_repeats_witness :
  SavePage.createBookmarkCalls
    (SavePageView.runSaveTimes 2
       [ {| SavePage.url := Some "https://example.org/" |} ]
       {| SavePage.error := None; SavePage.createBookmarkCalls := [] |}).2
  = [] ++ repeat {| SavePage.type := "link";
                    SavePage.bookmarkUrl := "https://example.org/" |} 2
  ∧ SavePage.error
      (SavePageView.runSaveTimes 2
         [ {| SavePage.url := Some "https://example.org/" |} ]
         {| SavePage.error := None; SavePage.createBookmarkCalls := [] |}).2
    = None.
Proof.
  apply (runSave_repeats 2 {| SavePage.url := Some "https://example.org/" |} []
           "https://example.org/"
           {| SavePage.error := None; SavePage.createBookmarkCalls := [] |}).
  - reflexivity.
  - discriminate.
Defined.

(** ** Deletes that remove nothing, or nothing but the victims *)

Lemma refersTo_nil (v : value) : refersTo [] v = false.
Proof.
  unfold refersTo. rewrite bool_decide_eq_false_2; [by rewrite andb_false_r|].
  apply not_elem_of_nil.
Qed.

Lemma filter_all {A : Type} (f : A → bool) (l : list A) :
  (∀ x, In x l → f x = true) → List.filter f l = l.
Proof.
  induction l as [|a l IH]; intros H; simpl; [done|].
  rewrite (H a) by (by left). f_equal. apply IH. intros x Hx. apply H. by right.
Qed.

Lemma filter_none {A : Type} (f : A → bool) (l : list A) :
  (∀ x, In x l → f x = false) → List.filter f l = [].
Proof.
  induction l as [|a l IH]; intros H; simpl; [done|].
  rewrite (H a) by (by left). apply IH. intros x Hx. apply H. by right.
Qed.

Lemma map_nullify_id (c : string) (keys : list value) (rs : list row) :
  (∀ r, In r rs → refersTo keys (get c r) = false) →
  map (nullify c keys) rs = rs.
Proof.
  intros H. rewrite <- (map_id rs) at 2. apply map_ext_in. intros r Hr.
  unfold nullify. by rewrite (H r Hr).
Qed.

(** When no child row refers to a deleted key, the reactions change no
    row. *)
Lemma fold_react_idle (del : string → (row → bool) → database → database)
    (gone : list row) (db1 : database)
    (fks : list (string * string * reference)) :
  (∀ x victim d,
     (∀ r, In r (rowsOf x d) → victim r = false) →
     ∀ y, rowsOf y (del x victim d) = rowsOf y d) →
  (∀ x c ref r, In (x, c, ref) fks → In r (rowsOf x db1) →
     refersTo (map (get (refColumn ref)) gone) (get c r) = false) →
  ∀ d, (∀ y, rowsOf y d = rowsOf y db1) →
       ∀ y, rowsOf y (fold_left (react del gone) fks d) = rowsOf y db1.
Proof.
  intros Hdel. induction fks as [|[[x c] ref] fks IH]; intros Hno d Hd y;
    simpl; [apply Hd|].
  apply IH.
  - intros x' c' ref' r Hin. apply Hno. by right.
  - intros y'. rewrite <- (Hd y'). unfold react. simpl.
    assert (Hrows : ∀ r, In r (rowsOf x d) →
              refersTo (map (get (refColumn ref)) gone) (get c r) = false).
    { intros r Hr. apply (Hno x c ref r); [by left|]. by rewrite <- Hd. }
    destruct (onDelete ref).
    + by apply Hdel.
    + rewrite (map_nullify_id c _ _ Hrows).
      destruct (decide (x = y')) as [<-|Hne].
      * apply rowsOf_insert_eq.
      * by apply rowsOf_insert_ne.
Qed.

(** A filter that matches no row deletes nothing, anywhere. *)
Lemma deleteRows_none (S : list table) (n : nat) :
  ∀ t victim db,
    (∀ r, In r (rowsOf t db) → victim r = false) →
    ∀ y, rowsOf y (deleteRows n S t victim db) = rowsOf y db.
Proof.
  induction n as [|n IH]; intros t victim db Hnone y; [done|].
  rewrite deleteRows_S.
  assert (Hkept : List.filter (fun r => negb (victim r)) (rowsOf t db) = rowsOf t db).
  { apply filter_all. intros r Hr. by rewrite (Hnone r Hr). }
  assert (Hsame : ∀ z, rowsOf z (<[t := List.filter (fun r => negb (victim r))
                                                     (rowsOf t db)]> db)
                       = rowsOf z db).
  { intros z. rewrite Hkept. destruct (decide (t = z)) as [<-|Hne].
    - apply rowsOf_insert_eq.
    - by apply rowsOf_insert_ne. }
  rewrite <- (Hsame y).
  apply (fold_react_idle (deleteRows n S)); [by apply IH| |done].
  intros x c ref r _ _. rewrite (filter_none victim) by done. apply refersTo_nil.
Qed.

(** When no remaining row refers to a victim's key, only the victims go. *)
Lemma deleteRows_unreferenced (S : list table) (n : nat) (t : string)
    (victim : row → bool) (db : database) :
  (∀ x c ref r,
     In (x, c, ref) (incoming S t) →
     In r (rowsOf x (<[t := List.filter (fun r => negb (victim r)) (rowsOf t db)]> db)) →
     refersTo (map (get (refColumn ref)) (List.filter victim (rowsOf t db)))
              (get c r) = false) →
  ∀ y, rowsOf y (deleteRows (Datatypes.S n) S t victim db)
       = rowsOf y (<[t := List.filter (fun r => negb (victim r)) (rowsOf t db)]> db).
Proof.
  intros Hno y. rewrite deleteRows_S.
  apply (fold_react_idle (deleteRows n S)); [apply deleteRows_none|done|done].
Qed.

(** X17. A delete whose where clause matches no row of the table changes
    nothing: every table keeps its rows. *)
Theorem delete_nothing (T : table) (victim : row → bool) (db : database)
    (y : string) :
  existsb victim (rowsOf (tblName T) db) = false →
  rowsOf y (deleteWhere schema T victim db) = rowsOf y db.
Proof.
  intros Hnone. apply deleteRows_none. intros r Hr.
  destruct (victim r) eqn:Hv; [|done].
  rewrite <- Hnone. symmetry. apply existsb_exists. eauto.
Qed.

Lemma delete_nothing_witness :
  rowsOf "bookmarkLinks"
    (deleteWhere schema bookmarks (whereEq "id" (VText "missing")) library)
  = rowsOf "bookmarkLinks" library.
Proof.
  apply (delete_nothing bookmarks (whereEq "id" (VText "missing")) library).
  vm_compute. reflexivity.
Defined.

(** ** Insert, then delete *)

Lemma schema_references_id (x c : string) (ref : reference) :
  In (x, c, ref) (allForeignKeys schema) → refColumn ref = "id".
Proof.
  intros He.
  assert (∀ e, In e (allForeignKeys schema) →
            bool_decide (refColumn e.2 = "id") = true) as Hall
    by (apply forallb_forall; vm_compute; reflexivity).
  pose proof (Hall _ He) as H. by apply bool_decide_eq_true in H.
Qed.

(** X18. In a valid state, inserting a row into a table whose primary key
    is [id] and then deleting the row with the id just stored gives back
    the rows of every table as they were before the insert. *)
Theorem insert_then_delete (k : clock) (T : table) (values : row)
    (db db' : database) (y : string) :
  db_ok schema db = true → In T schema → In ["id"] (uniqueKeys T) →
  insert k T values db = inr db' →
  rowsOf y (deleteWhere schema T
              (whereEq "id" (get "id" (fillRow k T values))) db')
  = rowsOf y db.
Proof.
  intros Hok HT Hkey Hins.
  apply insert_inr_checks in Hins as (-> & Hnn & Huniq & _).
  set (r := fillRow k T values) in *.
  set (t := tblName T) in *.
  (* the new id is not NULL, and no stored row carries it *)
  assert (Hid : get "id" r ≠ VNull).
  { destruct (notNullKey_spec T ["id"] (schema_keys_notNull T _ HT Hkey) "id")
      as (col & Hcol & Hcolnn); [by left|].
    rewrite notNullOk_spec in Hnn. exact (Hnn "id" col Hcol Hcolnn). }
  assert (Hfresh : ∀ r0, In r0 (rowsOf t db) → whereEq "id" (get "id" r) r0 = false).
  { intros r0 Hr0. apply bool_decide_eq_false. intros Heq.
    pose proof (Huniq ["id"] r0 Hkey Hr0) as Hag.
    apply not_true_iff_false in Hag. apply Hag, agree_spec.
    intros c [<-|[]]. rewrite Heq. split; [exact Hid|reflexivity]. }
  assert (Hvictims : List.filter (whereEq "id" (get "id" r)) (rowsOf t db ++ [r]) = [r]).
  { rewrite List.filter_app, (filter_none _ _ Hfresh). simpl.
    unfold whereEq at 1. by rewrite bool_decide_eq_true_2. }
  assert (Hkept : List.filter (fun r0 => negb (whereEq "id" (get "id" r) r0))
                              (rowsOf t db ++ [r]) = rowsOf t db).
  { rewrite List.filter_app, filter_all.
    - simpl. unfold whereEq at 1. rewrite bool_decide_eq_true_2 by done.
      simpl. apply app_nil_r.
    - intros r0 Hr0. by rewrite (Hfresh r0 Hr0). }
  assert (Hback : ∀ z, rowsOf z (<[t := rowsOf t db]> (<[t := rowsOf t db ++ [r]]> db))
                       = rowsOf z db).
  { intros z. destruct (decide (t = z)) as [<-|Hne].
    - apply rowsOf_insert_eq.
    - by rewrite !rowsOf_insert_ne. }
  rewrite deleteWhere_18. fold t.
  rewrite (deleteRows_unreferenced schema 17 t); rewrite rowsOf_insert_eq.
  - rewrite Hkept. apply Hback.
  - rewrite Hkept, Hvictims. intros x c ref r1 He Hr1. rewrite Hback in Hr1.
    destruct (refersTo (map (get (refColumn ref)) [r]) (get c r1)) eqn:Href; [|done].
    exfalso. apply refersTo_spec in Href as [Hnn1 [Hin|[]]].
    apply incoming_spec in He as (Ht & Tx & HTx & HTxname & Hfk).
    destruct (fk_ok_spec schema db Tx r1 c ref (db_ok_fk_ok schema db Hok) HTx)
      as (p & Hp & Hpkey); [by rewrite HTxname|done|done|].
    rewrite Ht in Hp.
    assert (refColumn ref = "id") as Hcol.
    { apply (schema_references_id x c ref), allForeignKeys_spec. eauto. }
    rewrite Hcol in Hin, Hpkey.
    pose proof (Hfresh p Hp) as Hp'. apply bool_decide_eq_false in Hp'.
    apply Hp'. congruence.
Qed.

Lemma insert_then_delete_witness :
  ∃ db',
    insert (Clock "b9" 1700001000) bookmarks
           (mkRow [("userId", VText "u1"); ("type", VText "link")]) library
      = inr db'
    ∧ rowsOf "bookmarks"
        (deleteWhere schema bookmarks
           (whereEq "id"
              (get "id" (fillRow (Clock "b9" 1700001000) bookmarks
                           (mkRow [("userId", VText "u1"); ("type", VText "link")]))))
           db')
      = rowsOf "bookmarks" library.
Proof.
  eexists. split.
  - apply insert_accepts; vm_compute; reflexivity.
  - apply (insert_then_delete (Clock "b9" 1700001000) bookmarks
             (mkRow [("userId", VText "u1"); ("type", VText "link")]) library).
    + vm_compute. reflexivity.
    + in_list.
    + in_list.
    + apply insert_accepts; vm_compute; reflexivity.
Defined.

(** ** Cascades delete the referring rows and nothing else *)

Lemma splitAt_spec (e : string * string * reference)
    (l before after : list (string * string * reference)) :
  splitAt e l = Some (before, after) → l = before ++ e :: after.
Proof.
  revert before. induction l as [|a l IH]; intros before; simpl; [done|].
  case_bool_decide as Ha.
  - intros [= <- <-]. by rewrite Ha.
  - destruct (splitAt e l) as [[b a']|]; [|done].
    intros [= <- <-]. simpl. f_equal. by apply IH.
Qed.

Lemma fold_left_cons {A B : Type} (f : A → B → A) (b : B) (l : list B) (a : A) :
  fold_left f (b :: l) a = fold_left f l (f a b).
Proof. reflexivity. Qed.

Lemma deleteRows_child_exact (S : list table) (n : nat) (t x c : string)
    (ref : reference) (victim : row → bool) (db : database)
    (before after : list (string * string * reference)) :
  incoming S t = before ++ (x, c, ref) :: after →
  onDelete ref = cascade → x ≠ t →
  ¬ In x (flat_map (touchedBy (affected (Datatypes.S n) S)) before) →
  ¬ In x (flat_map (touchedBy (affected (Datatypes.S n) S)) after) →
  ¬ In x (reached n S x) →
  rowsOf x (deleteRows (Datatypes.S (Datatypes.S n)) S t victim db)
  = List.filter
      (fun r => negb (refersTo (map (get (refColumn ref))
                                    (List.filter victim (rowsOf t db)))
                               (get c r)))
      (rowsOf x db).
Proof.
  intros Hsplit Hact Hxt Hbefore Hafter Hself.
  rewrite deleteRows_S, Hsplit, fold_left_app, fold_left_cons.
  rewrite (fold_react_frame (deleteRows (Datatypes.S n) S)
             (affected (Datatypes.S n) S));
    [|intros fk _ _ v d Hx; by apply deleteRows_frame|exact Hafter].
  unfold react at 1. cbn [fst snd]. rewrite Hact.
  rewrite (deleteRows_self S n x) by exact Hself.
  rewrite (fold_react_frame (deleteRows (Datatypes.S n) S)
             (affected (Datatypes.S n) S));
    [|intros fk _ _ v d Hx; by apply deleteRows_frame|exact Hbefore].
  rewrite rowsOf_insert_ne by (intros Heq; by apply Hxt).
  reflexivity.
Qed.

(** The references of the schema that are the only way into their table:
    all cascading references but [assets.userId] (assets also go with
    their bookmark) and [bookmarkLists.userId] (lists are also rewritten by
    their own [parentId]). *)
Lemma schema_soleRoutes :
  map (fun e => (e.1.1, e.1.2, refTable e.2))
      (List.filter (soleRoute 16 schema) (allForeignKeys schema))
  = [ ("account", "userId", "user"); ("session", "userId", "user");
      ("apiKey", "userId", "user"); ("bookmarks", "userId", "user");
      ("bookmarkLinks", "id", "bookmarks"); ("assets", "bookmarkId", "bookmarks");
      ("bookmarkTexts", "id", "bookmarks"); ("bookmarkAssets", "id", "bookmarks");
      ("bookmarkTags", "userId", "user");
      ("tagsOnBookmarks", "bookmarkId", "bookmarks");
      ("tagsOnBookmarks", "tagId", "bookmarkTags");
      ("bookmarksInLists", "bookmarkId", "bookmarks");
      ("bookmarksInLists", "listId", "bookmarkLists");
      ("customPrompts", "userId", "user"); ("rssFeeds", "userId", "user");
      ("rssFeedImports", "rssFeedId", "rssFeeds") ].
Proof. vm_compute. reflexivity. Qed.

(** X19. A cascade deletes the referring rows and nothing else.  For each
    of the sixteen references of [schema_soleRoutes]: after a delete from
    the parent table, the referring table holds exactly its former rows
    that did not name a deleted parent, unchanged and in order (so the
    bookmarks of other users survive the deletion of a user, the tags
    attached to other bookmarks survive the deletion of a bookmark, and so
    on). *)
Theorem cascade_deletes_exactly (T : table) (x c : string) (ref : reference)
    (victim : row → bool) (db : database) :
  soleRoute 16 schema (x, c, ref) = true → tblName T = refTable ref →
  rowsOf x (deleteWhere schema T victim db)
  = List.filter
      (fun r => negb (refersTo (map (get (refColumn ref))
                                    (List.filter victim (rowsOf (refTable ref) db)))
                               (get c r)))
      (rowsOf x db).
Proof.
  intros Hsole Hname. rewrite deleteWhere_18, Hname.
  unfold soleRoute in Hsole. cbn [fst snd] in Hsole.
  destruct (splitAt (x, c, ref) (incoming schema (refTable ref)))
    as [[before after]|] eqn:Hsplit; [|discriminate].
  apply splitAt_spec in Hsplit.
  rewrite !andb_true_iff, !negb_true_iff in Hsole.
  destruct Hsole as [[[[Hact Hxt] Hbefore] Hafter] Hself].
  apply (deleteRows_child_exact schema 16 (refTable ref) x c ref victim db
           before after Hsplit).
  - by destruct (onDelete ref).
  - by apply bool_decide_eq_false in Hxt.
  - by apply not_In_decide.
  - by apply not_In_decide.
  - by apply not_In_decide.
Qed.

Lemma cascade_deletes_exactly_witness :
  rowsOf "bookmarks" (deleteWhere schema users (whereEq "id" (VText "u1")) library)
  = List.filter
      (fun r => negb (refersTo
                        (map (get "id")
                             (List.filter (whereEq "id" (VText "u1"))
                                          (rowsOf "user" library)))
                        (get "userId" r)))
      (rowsOf "bookmarks" library).
Proof.
  apply (cascade_deletes_exactly users "bookmarks" "userId"
           (Reference "user" "id" cascade) (whereEq "id" (VText "u1")) library).
  - vm_compute. reflexivity.
  - reflexivity.
Defined.

(** ** A cycle can be inserted *)

(** X20. Nothing stops a list from being created as its own parent: in
    any state where the owner exists and the id is unused, inserting a list
    whose [parentId] is its own [id] succeeds, and in the resulting state
    that list is its own ancestor. *)
Theorem self_parent_insertable (k : clock) (db : database)
    (id owner name icon : string) :
  existsb (whereEq "id" (VText owner)) (rowsOf "user" db) = true →
  existsb (whereEq "id" (VText id)) (rowsOf "bookmarkLists" db) = false →
  ∃ db' l,
    insert k bookmarkLists (selfParentValues id owner name icon) db = inr db'
    ∧ get "parentId" l = get "id" l
    ∧ ancestor db' l l.
Proof.
  intros Howner Hfresh.
  set (values := selfParentValues id owner name icon).
  set (r := fillRow k bookmarkLists values).
  assert (Hid : get "id" r = VText id) by (vm_compute; reflexivity).
  assert (Hparent : get "parentId" r = VText id) by (vm_compute; reflexivity).
  assert (Huser : get "userId" r = VText owner) by (vm_compute; reflexivity).
  exists (<["bookmarkLists" := rowsOf "bookmarkLists" db ++ [r]]> db), r.
  assert (Hnew : In r (rowsOf "bookmarkLists"
                         (<["bookmarkLists" := rowsOf "bookmarkLists" db ++ [r]]> db))).
  { rewrite rowsOf_insert_eq. apply in_or_app. right. by left. }
  split; [|split].
  - apply (insert_accepts k bookmarkLists values db).
    + vm_compute. reflexivity.
    + destruct (existsb _ (uniqueKeys bookmarkLists)) eqn:Hex; [|reflexivity].
      apply existsb_exists in Hex as (cs & Hcs & Hex).
      apply existsb_exists in Hex as (r0 & Hr0 & Hag).
      assert (cs = ["id"]) as -> by (by destruct Hcs as [<-|[]]).
      rewrite agree_spec in Hag. destruct (Hag "id") as [_ Heq]; [by left|].
      assert (existsb (whereEq "id" (VText id)) (rowsOf "bookmarkLists" db) = true)
        as Hdup; [|congruence].
      apply existsb_exists. exists r0. split; [exact Hr0|].
      apply bool_decide_eq_true. fold values r in Heq. congruence.
    + change (foreignKeys bookmarkLists)
        with [("userId", Reference "user" "id" cascade);
              ("parentId", Reference "bookmarkLists" "id" setNull)].
      change (tblName bookmarkLists) with "bookmarkLists". fold values r.
      cbn [forallb]. rewrite andb_true_r. apply andb_true_iff. split.
      * apply fkOk_spec. right. rewrite Huser.
        apply existsb_exists in Howner as (p & Hp & Hpid).
        apply bool_decide_eq_true in Hpid. exists p. split; [|done].
        cbn [refTable]. by rewrite rowsOf_insert_ne.
      * apply fkOk_spec. right. rewrite Hparent. exists r. done.
  - congruence.
  - apply ancestor_parent. unfold parentOf.
    split; [exact Hnew|]. split; [exact Hnew|].
    split; [rewrite Hparent; discriminate|congruence].
Qed.

Lemma self_parent_insertable_witness :
  ∃ db' l,
    insert (Clock "unused" 1700001000) bookmarkLists
           (selfParentValues "l9" "u1" "loop" "*") library = inr db'
    ∧ get "parentId" l = get "id" l
    ∧ ancestor db' l l.
Proof.
  apply (self_parent_insertable (Clock "unused" 1700001000) library
           "l9" "u1" "loop" "*"); vm_compute; reflexivity.
Defined.
